(** * Gallery API server: the data-access and transformation layer

    A shallow embedding of [src/db.js] and [src/app.js]: the seeding of the
    [gallery_items] table, the handlers of the four HTTP endpoints, and the
    parts of the JavaScript run time they go through (strings of UTF-16 code
    units, plain objects used as maps, [JSON.stringify] / [JSON.parse],
    [Array.prototype.sort]). *)

From Stdlib Require Import Ascii String.
From Stdlib Require Import List NArith ZArith Bool Lia.
From Stdlib Require Import Sorted Permutation.
Import ListNotations.

Set Implicit Arguments.
Set Warnings "-register-all".

(* ================================================================== *)
(** ** JavaScript strings *)

(** A JavaScript string is a sequence of UTF-16 code units. *)
Module JSString.

Abbreviation cu := N.
Abbreviation t := (list N).

(** Literals of the source, all ASCII, are written [js "..."]. *)
Definition js (s : string) : t := map N_of_ascii (list_ascii_of_string s).

Fixpoint eqb (a b : t) : bool :=
  match a, b with
  | [], [] => true
  | x :: a', y :: b' => N.eqb x y && eqb a' b'
  | _, _ => false
  end.

(** [String.prototype.startsWith]. *)
Fixpoint startsWith (s prefix : t) : bool :=
  match prefix, s with
  | [], _ => true
  | p :: prefix', c :: s' => N.eqb p c && startsWith s' prefix'
  | _ :: _, [] => false
  end.

Definition isDigit (c : cu) : bool := (48 <=? c)%N && (c <=? 57)%N.

(** Value of a run of decimal digits, most significant first. *)
Definition digitsValue (s : t) : N :=
  fold_left (fun acc c => (10 * acc + (c - 48))%N) s 0%N.

(** Decimal digits of a natural number, as [Number.prototype.toString]
    prints a non-negative integer below 2^53. *)
Fixpoint digitsFrom (fuel : nat) (n : N) (acc : t) : t :=
  match fuel with
  | O => acc
  | S fuel' =>
      let acc' := (48 + n mod 10)%N :: acc in
      if (n <? 10)%N then acc' else digitsFrom fuel' (n / 10)%N acc'
  end.

Definition ofN (n : N) : t := digitsFrom (S (N.to_nat (N.log2 n))) n [].

(** The operand of [x || y] on a possibly absent string: [undefined],
    [null] and the empty string are falsy. *)
Definition truthy (v : option t) : bool :=
  match v with
  | Some (_ :: _) => true
  | _ => false
  end.

Definition orElse (v : option t) (d : t) : t :=
  match v with
  | Some (c :: s) => c :: s
  | _ => d
  end.

End JSString.

Abbreviation jsstring := JSString.t.
Abbreviation js := JSString.js.

(* ================================================================== *)
(** ** Plain objects used as maps *)

(** An ordinary object keeps its own string-keyed properties in creation
    order; enumeration ([Object.values]) lists the properties whose key is an
    array index first, in ascending numeric order, and then the others in
    creation order.  A property read that misses the own properties falls
    through to [Object.prototype]. *)
Module JSObject.

Definition t (A : Type) := list (jsstring * A).

Section Props.
Variable A : Type.

Fixpoint getOwn (o : t A) (k : jsstring) : option A :=
  match o with
  | [] => None
  | (k', v) :: o' => if JSString.eqb k' k then Some v else getOwn o' k
  end.

(** [o[k] = v]: an existing own property keeps its place. *)
Fixpoint set (o : t A) (k : jsstring) (v : A) : t A :=
  match o with
  | [] => [(k, v)]
  | (k', v') :: o' =>
      if JSString.eqb k' k then (k', v) :: o' else (k', v') :: set o' k v
  end.

(** A canonical numeric string of an integer in 0 .. 2^32 - 2. *)
Definition isArrayIndex (k : jsstring) : bool :=
  match k with
  | [] => false
  | c :: rest =>
      forallb JSString.isDigit k
      && (negb (N.eqb c 48) || match rest with [] => true | _ => false end)
      && (length k <=? 10)%nat
      && (JSString.digitsValue k <=? 4294967294)%N
  end.

Fixpoint insertIndex (p : jsstring * A) (l : t A) : t A :=
  match l with
  | [] => [p]
  | q :: l' =>
      if (JSString.digitsValue (fst p) <=? JSString.digitsValue (fst q))%N
      then p :: l else q :: insertIndex p l'
  end.

(** [OrdinaryOwnPropertyKeys] order. *)
Definition ownProperties (o : t A) : t A :=
  fold_right insertIndex [] (filter (fun p => isArrayIndex (fst p)) o)
  ++ filter (fun p => negb (isArrayIndex (fst p))) o.

Definition values (o : t A) : list A := map snd (ownProperties o).

End Props.

(** The properties every plain object inherits from [Object.prototype]
    (the standard ones and the legacy accessors of Annex B). All of them
    are functions, except [__proto__], which reads as the prototype
    object itself; none of these values has an [items] property. *)
Definition prototypeNames : list jsstring :=
  [ js "constructor"; js "__proto__"; js "hasOwnProperty";
    js "isPrototypeOf"; js "propertyIsEnumerable"; js "toLocaleString";
    js "toString"; js "valueOf"; js "__defineGetter__";
    js "__defineSetter__"; js "__lookupGetter__"; js "__lookupSetter__" ].

Definition inherited (k : jsstring) : bool :=
  existsb (JSString.eqb k) prototypeNames.

End JSObject.

(* ================================================================== *)
(** ** JSON *)

Module JSON.

(** JSON values. A number keeps its source text: the double it denotes is
    not needed by any caller in this program. *)
Inductive value :=
| JNull
| JBool (b : bool)
| JNum (lexeme : jsstring)
| JStr (s : jsstring)
| JArr (elems : list value)
| JObj (members : JSObject.t value).

(** *** [JSON.stringify] *)

Definition hexDigit (d : N) : JSString.cu :=
  if (d <? 10)%N then (48 + d)%N else (87 + d)%N.

(** [UnicodeEscape]: backslash, u, four lowercase hex digits. *)
Definition unicodeEscape (c : JSString.cu) : jsstring :=
  [ 92; 117;
    hexDigit ((c / 4096) mod 16); hexDigit ((c / 256) mod 16);
    hexDigit ((c / 16) mod 16); hexDigit (c mod 16) ]%N.

Definition isLeadSurrogate (c : JSString.cu) : bool :=
  (55296 <=? c)%N && (c <=? 56319)%N.
Definition isTrailSurrogate (c : JSString.cu) : bool :=
  (56320 <=? c)%N && (c <=? 57343)%N.

(** One code point that is not a surrogate. *)
Definition quoteCodeUnit (c : JSString.cu) : jsstring :=
  if      (c =? 8)%N  then [92; 98]%N
  else if (c =? 9)%N  then [92; 116]%N
  else if (c =? 10)%N then [92; 110]%N
  else if (c =? 12)%N then [92; 102]%N
  else if (c =? 13)%N then [92; 114]%N
  else if (c =? 34)%N then [92; 34]%N
  else if (c =? 92)%N then [92; 92]%N
  else if (c <? 32)%N then unicodeEscape c
  else [c].

(** The body of [QuoteJSONString]: the string is read by code points, a
    well-formed surrogate pair is copied and a lone surrogate escaped. *)
Fixpoint quoteChars (s : jsstring) : jsstring :=
  match s with
  | [] => []
  | c :: s' =>
      if isLeadSurrogate c then
        match s' with
        | d :: s'' =>
            if isTrailSurrogate d then c :: d :: quoteChars s''
            else unicodeEscape c ++ quoteChars s'
        | [] => unicodeEscape c
        end
      else if isTrailSurrogate c then unicodeEscape c ++ quoteChars s'
      else quoteCodeUnit c ++ quoteChars s'
  end.

Definition quote (s : jsstring) : jsstring := 34%N :: quoteChars s ++ [34%N].

(** Elements or members separated by commas. *)
Fixpoint commaSep (parts : list jsstring) : jsstring :=
  match parts with
  | [] => []
  | [p] => p
  | p :: rest => p ++ 44%N :: commaSep rest
  end.

Section Stringify.
(** [Number::toString] of the double a number lexeme denotes (and
    [null] when it is not finite): floating point, left to the engine. *)
Variable numberToString : jsstring -> jsstring.

Fixpoint stringify (v : value) : jsstring :=
  match v with
  | JNull => js "null"
  | JBool true => js "true"
  | JBool false => js "false"
  | JNum n => numberToString n
  | JStr s => quote s
  | JArr elems => 91%N :: commaSep (map stringify elems) ++ [93%N]
  | JObj members =>
      123%N ::
      commaSep (map (fun kv => quote (fst kv) ++ 58%N :: snd kv)
                  (JSObject.ownProperties
                     (map (fun kv => (fst kv, stringify (snd kv))) members)))
      ++ [125%N]
  end.
End Stringify.

(** [JSON.stringify] of an array of strings, as the seeding passes it. *)
Definition stringifyStrings (l : list jsstring) : jsstring :=
  91%N :: commaSep (map quote l) ++ [93%N].

(** *** [JSON.parse] *)

Definition isWhitespace (c : JSString.cu) : bool :=
  (c =? 9)%N || (c =? 10)%N || (c =? 13)%N || (c =? 32)%N.

Fixpoint skipWs (s : jsstring) : jsstring :=
  match s with
  | c :: s' => if isWhitespace c then skipWs s' else s
  | [] => []
  end.

Definition hexValue (c : JSString.cu) : option N :=
  if (48 <=? c)%N && (c <=? 57)%N then Some (c - 48)%N
  else if (97 <=? c)%N && (c <=? 102)%N then Some (c - 87)%N
  else if (65 <=? c)%N && (c <=? 70)%N then Some (c - 55)%N
  else None.

Definition hex4 (a b c d : JSString.cu) : option JSString.cu :=
  match hexValue a, hexValue b, hexValue c, hexValue d with
  | Some x, Some y, Some z, Some w => Some (((x * 16 + y) * 16 + z) * 16 + w)%N
  | _, _, _, _ => None
  end.

Definition unescape (c : JSString.cu) : option JSString.cu :=
  if      (c =? 34)%N  then Some 34%N
  else if (c =? 92)%N  then Some 92%N
  else if (c =? 47)%N  then Some 47%N
  else if (c =? 98)%N  then Some 8%N
  else if (c =? 102)%N then Some 12%N
  else if (c =? 110)%N then Some 10%N
  else if (c =? 114)%N then Some 13%N
  else if (c =? 116)%N then Some 9%N
  else None.

Definition consFst (c : JSString.cu) (r : option (jsstring * jsstring))
  : option (jsstring * jsstring) :=
  match r with
  | Some (s, rest) => Some (c :: s, rest)
  | None => None
  end.

(** A string after its opening quote: the contents and what follows the
    closing quote. *)
Fixpoint parseChars (s : jsstring) : option (jsstring * jsstring) :=
  match s with
  | [] => None
  | c :: s1 =>
      if (c =? 34)%N then Some ([], s1)
      else if (c =? 92)%N then
        match s1 with
        | [] => None
        | e :: s2 =>
            if (e =? 117)%N then
              match s2 with
              | h1 :: h2 :: h3 :: h4 :: s3 =>
                  match hex4 h1 h2 h3 h4 with
                  | Some u => consFst u (parseChars s3)
                  | None => None
                  end
              | _ => None
              end
            else
              match unescape e with
              | Some u => consFst u (parseChars s2)
              | None => None
              end
        end
      else if (c <? 32)%N then None
      else consFst c (parseChars s1)
  end.

Fixpoint spanDigits (s : jsstring) : jsstring * jsstring :=
  match s with
  | c :: s' =>
      if JSString.isDigit c
      then let (ds, rest) := spanDigits s' in (c :: ds, rest)
      else ([], s)
  | [] => ([], [])
  end.

(** The integer part: a lone zero, or a nonzero digit and more digits. *)
Definition parseInt (s : jsstring) : option (jsstring * jsstring) :=
  match s with
  | c :: s' =>
      if (c =? 48)%N then Some ([c], s')
      else if JSString.isDigit c
      then let (ds, rest) := spanDigits s' in Some (c :: ds, rest)
      else None
  | [] => None
  end.

(** The rest of the text after the code unit [c], if it starts with it. *)
Definition expect (c : JSString.cu) (s : jsstring) : option jsstring :=
  match s with
  | x :: rest => if (x =? c)%N then Some rest else None
  | [] => None
  end.

(** At least one digit. *)
Definition parseDigits (s : jsstring) : option (jsstring * jsstring) :=
  match spanDigits s with
  | ([], _) => None
  | (d :: ds, rest) => Some (d :: ds, rest)
  end.

Definition parseFrac (s : jsstring) : option (jsstring * jsstring) :=
  match expect 46 s with
  | Some s' =>
      match parseDigits s' with
      | Some (ds, rest) => Some (46%N :: ds, rest)
      | None => None
      end
  | None => Some ([], s)
  end.

Definition parseSign (s : jsstring) : jsstring * jsstring :=
  match s with
  | g :: s' => if (g =? 43)%N || (g =? 45)%N then ([g], s') else ([], s)
  | [] => ([], s)
  end.

Definition parseExp (s : jsstring) : option (jsstring * jsstring) :=
  match s with
  | e :: s' =>
      if (e =? 101)%N || (e =? 69)%N then
        let (sign, s'') := parseSign s' in
        match parseDigits s'' with
        | Some (ds, rest) => Some (e :: sign ++ ds, rest)
        | None => None
        end
      else Some ([], s)
  | [] => Some ([], s)
  end.

Definition parseNumber (s : jsstring) : option (jsstring * jsstring) :=
  let (minus, s0) :=
    match expect 45 s with
    | Some s' => ([45%N], s')
    | None => ([], s)
    end in
  match parseInt s0 with
  | None => None
  | Some (i, s1) =>
      match parseFrac s1 with
      | None => None
      | Some (f, s2) =>
          match parseExp s2 with
          | None => None
          | Some (e, s3) => Some (minus ++ i ++ f ++ e, s3)
          end
      end
  end.

Definition parseLiteral (word : jsstring) (v : value) (s : jsstring)
  : option (value * jsstring) :=
  if JSString.startsWith s word then Some (v, skipn (length word) s) else None.

(** The recursive descent. The fuel bounds the number of nested calls; each
    call reads at least one code unit before the next one is made, so the
    length of the text is always enough ([parseValue_fuel] below). *)
Fixpoint parseValue (fuel : nat) (s : jsstring) : option (value * jsstring) :=
  match fuel with
  | O => None
  | S fuel' =>
      match skipWs s with
      | [] => None
      | c :: s1 =>
          if (c =? 34)%N then
            match parseChars s1 with
            | Some (str, rest) => Some (JStr str, rest)
            | None => None
            end
          else if (c =? 91)%N then
            match expect 93 (skipWs s1) with
            | Some rest => Some (JArr [], rest)
            | None =>
                match parseElements fuel' s1 with
                | Some (elems, rest) => Some (JArr elems, rest)
                | None => None
                end
            end
          else if (c =? 123)%N then
            match expect 125 (skipWs s1) with
            | Some rest => Some (JObj [], rest)
            | None =>
                match parseMembers fuel' [] s1 with
                | Some (members, rest) => Some (JObj members, rest)
                | None => None
                end
            end
          else if (c =? 116)%N then
            parseLiteral (js "true") (JBool true) (c :: s1)
          else if (c =? 102)%N then
            parseLiteral (js "false") (JBool false) (c :: s1)
          else if (c =? 110)%N then
            parseLiteral (js "null") JNull (c :: s1)
          else
            match parseNumber (c :: s1) with
            | Some (n, rest) => Some (JNum n, rest)
            | None => None
            end
      end
  end

(** One element and the rest of a non-empty array, up to its bracket. *)
with parseElements (fuel : nat) (s : jsstring)
  : option (list value * jsstring) :=
  match fuel with
  | O => None
  | S fuel' =>
      match parseValue fuel' s with
      | None => None
      | Some (v, s1) =>
          match skipWs s1 with
          | [] => None
          | c :: s2 =>
              if (c =? 93)%N then Some ([v], s2)
              else if (c =? 44)%N then
                match parseElements fuel' s2 with
                | Some (vs, rest) => Some (v :: vs, rest)
                | None => None
                end
              else None
          end
      end
  end

(** One member and the rest of a non-empty object, up to its brace; a
    repeated key overwrites the earlier value. *)
with parseMembers (fuel : nat) (acc : JSObject.t value) (s : jsstring)
  : option (JSObject.t value * jsstring) :=
  match fuel with
  | O => None
  | S fuel' =>
      match expect 34 (skipWs s) with
      | None => None
      | Some s1 =>
          match parseChars s1 with
          | None => None
          | Some (k, s2) =>
              match expect 58 (skipWs s2) with
              | None => None
              | Some s3 =>
                  match parseValue fuel' s3 with
                  | None => None
                  | Some (v, s4) =>
                      let acc' := JSObject.set acc k v in
                      match skipWs s4 with
                      | [] => None
                      | c :: s5 =>
                          if (c =? 125)%N then Some (acc', s5)
                          else if (c =? 44)%N then parseMembers fuel' acc' s5
                          else None
                      end
                  end
              end
          end
      end
  end.

(** [JSON.parse(text)]: one value, then nothing but white space.
    [None] stands for the [SyntaxError] it throws. *)
Definition parse (text : jsstring) : option value :=
  match parseValue (S (S (length text))) text with
  | Some (v, rest) =>
      match skipWs rest with
      | [] => Some v
      | _ :: _ => None
      end
  | None => None
  end.

(** What a successful call has read bounds the fuel it needs. *)
Definition readsV (fuel : nat) : Prop :=
  forall s v rest,
    parseValue fuel s = Some (v, rest) ->
    (length rest < length s)%nat
    /\ forall g, (length s - length rest <= g)%nat ->
                 parseValue g s = Some (v, rest).

Definition readsE (fuel : nat) : Prop :=
  forall s vs rest,
    parseElements fuel s = Some (vs, rest) ->
    (length rest < length s)%nat
    /\ forall g, (length s - length rest <= g)%nat ->
                 parseElements g s = Some (vs, rest).

Definition readsM (fuel : nat) : Prop :=
  forall acc s members rest,
    parseMembers fuel acc s = Some (members, rest) ->
    (length rest < length s)%nat
    /\ forall g, (length s - length rest <= g)%nat ->
                 parseMembers g acc s = Some (members, rest).

End JSON.

(* ================================================================== *)
(** ** Arrays *)

Module JSArray.

Section Sort.
Variable A : Type.
(** The comparison function; [None] is a [NaN] result. *)
Variable comparefn : A -> A -> option Z.

(** [SortCompare]: a [NaN] from the comparison function counts as 0. *)
Definition sortCompare (x y : A) : Z :=
  match comparefn x y with
  | Some v => v
  | None => 0%Z
  end.

Fixpoint insert (x : A) (l : list A) : list A :=
  match l with
  | [] => [x]
  | y :: l' => if (sortCompare x y <=? 0)%Z then x :: l else y :: insert x l'
  end.

(** [Array.prototype.sort(comparefn)]. The language requires the sort to
    be stable, which fixes the result whenever the comparison function
    is consistent; this is the stable insertion sort.  When the function
    is not consistent the language leaves the order to the engine, whose
    order can differ from the one computed here (V8 looks for runs and
    inserts by bisection): the general statements below conclude an order
    only where the function is consistent. *)
Definition sort (l : list A) : list A := fold_right insert [] l.
End Sort.

End JSArray.

(* ================================================================== *)
(** ** [path] *)

Module Path.

Definition isSlash (c : JSString.cu) : bool := (c =? 47)%N.

Fixpoint dropSlashes (s : jsstring) : jsstring :=
  match s with
  | c :: s' => if isSlash c then dropSlashes s' else s
  | [] => []
  end.

Fixpoint takeSegment (s : jsstring) : jsstring :=
  match s with
  | c :: s' => if isSlash c then [] else c :: takeSegment s'
  | [] => []
  end.

(** [path.basename] (POSIX): the last segment, trailing slashes ignored. *)
Definition basename (p : jsstring) : jsstring :=
  rev (takeSegment (dropSlashes (rev p))).

End Path.

(* ================================================================== *)
(** ** The [gallery_items] table *)

(** One row of
    [gallery_items(id TEXT PRIMARY KEY, type TEXT NOT NULL, src TEXT NOT NULL,
    alt TEXT, poster TEXT, isFavorite INTEGER DEFAULT 0,
    dateGroup TEXT NOT NULL, categories TEXT)].
    [isFavorite] holds the integers the program binds to it. *)
Module Row.
Record t := {
  id : jsstring;
  type : jsstring;
  src : jsstring;
  alt : option jsstring;
  poster : option jsstring;
  isFavorite : Z;
  dateGroup : jsstring;
  categories : option jsstring
}.

Definition withFavorite (r : t) (v : Z) : t :=
  {| id := id r; type := type r; src := src r; alt := alt r;
     poster := poster r; isFavorite := v; dateGroup := dateGroup r;
     categories := categories r |}.
End Row.

(** The statements the program runs, on the table as the list of its rows in
    rowid order. A statement that violates a constraint fails ([None]). *)
Module Sqlite.

Definition table := list Row.t.

Definition hasId (itemId : jsstring) (r : Row.t) : bool :=
  JSString.eqb (Row.id r) itemId.

(** [SELECT COUNT( * ) as count FROM gallery_items] *)
Definition count (db : table) : Z := Z.of_nat (length db).

(** [SELECT * FROM gallery_items] *)
Definition all (db : table) : list Row.t := db.

(** [db.get('SELECT ... FROM gallery_items WHERE id = ?', itemId)]:
    the first matching row, or [undefined]. *)
Definition get (db : table) (itemId : jsstring) : option Row.t :=
  find (hasId itemId) db.

(** [INSERT INTO gallery_items (...) VALUES (?, ?, ?, ?, ?, ?, ?, ?)]:
    the primary key rejects an [id] that is already there. *)
Definition insert (db : table) (r : Row.t) : option table :=
  if existsb (hasId (Row.id r)) db then None else Some (db ++ [r]).

(** [UPDATE gallery_items SET isFavorite = ? WHERE id = ?] *)
Definition updateFavorite (db : table) (v : Z) (itemId : jsstring) : table :=
  map (fun r => if hasId itemId r then Row.withFavorite r v else r) db.

(** [DELETE FROM gallery_items WHERE id = ?], with [result.changes]. *)
Definition delete (db : table) (itemId : jsstring) : table * nat :=
  (filter (fun r => negb (hasId itemId r)) db,
   length (filter (hasId itemId) db)).

End Sqlite.

(* ================================================================== *)
(** ** [db.js] *)

Module Db.

(** An element of [initialMockGalleryItems]; [poster] is absent on images. *)
Record mockItem := {
  id : jsstring;
  type : jsstring;
  src : jsstring;
  poster : option jsstring;
  alt : jsstring;
  categories : list jsstring;
  isFavorite : Z;
  dateGroup : jsstring
}.

Definition img (i s a : string) (c : list string) (f : Z) (d : string) :=
  {| id := js i; type := js "image"; src := js s; poster := None;
     alt := js a; categories := map JSString.js c; isFavorite := f;
     dateGroup := js d |}.

Definition vid (i s p a : string) (c : list string) (f : Z) (d : string) :=
  {| id := js i; type := js "video"; src := js s; poster := Some (js p);
     alt := js a; categories := map JSString.js c; isFavorite := f;
     dateGroup := js d |}.

Local Open Scope string_scope.

Definition initialMockGalleryItems : list mockItem :=
  [ (* May 2025 *)
    img "img-001" "/source/Pics/identity_veeshna_01.jpg"
        "identity_veeshna_01.jpg"
        ["library"; "nature"; "landscape"] 0 "May 1, 2025";
    vid "vid-001" "https://www.w3schools.com/html/mov_bbb.mp4"
        "https://source.unsplash.com/random/800x600?forest,animals"
        "Big Buck Bunny short clip"
        ["library"; "videos"; "animals"] 0 "May 1, 2025";
    img "img-002" "/source/Pics/identity_veeshna_03.jpg"
        "identity_veeshna_03.jpg"
        ["library"; "people"; "portraits"] 1 "May 1, 2025";
    img "img-003" "/source/Pics/identity_veeshna_02.jpg"
        "identity_veeshna_02.jpg"
        ["library"; "city"] 0 "May 1, 2025";
    img "img-004" "/source/Pics/identity_renuka_02.jpg"
        "identity_renuka_02.jpg"
        ["library"; "food"] 0 "May 1, 2025";
    (* April 2025 *)
    img "img-005" "/source/Pics/identity_renuka_01.jpg"
        "identity_renuka_01.jpg"
        ["library"; "nature"; "landscape"; "trips"] 0 "April 15, 2025";
    img "img-006"
        "https://source.unsplash.com/random/600x800?architecture,building"
        "Modern glass skyscraper exterior"
        ["library"; "architecture"; "city"] 0 "April 15, 2025";
    vid "vid-002"
        "http://commondatastorage.googleapis.com/gtv-videos-bucket/sample/ElephantsDream.mp4"
        "https://source.unsplash.com/random/800x600?dream,fantasy"
        "Animated sequence from Elephants Dream"
        ["library"; "videos"; "animation"] 1 "April 15, 2025";
    img "img-007" "https://source.unsplash.com/random/800x800?animals,cat"
        "Cute fluffy cat relaxing"
        ["library"; "animals"; "favorites"] 0 "April 15, 2025";
    img "img-008" "https://source.unsplash.com/random/1200x800?flower,garden"
        "Vibrant blooming flower in a garden"
        ["library"; "nature"; "garden"] 0 "April 15, 2025";
    (* March 2025 *)
    img "img-009" "https://source.unsplash.com/random/800x600?beach,ocean"
        "Tropical beach with clear blue ocean"
        ["library"; "nature"; "trips"] 0 "March 5, 2025";
    img "img-010" "https://source.unsplash.com/random/600x800?coffee,drink"
        "Steaming cup of coffee on a table"
        ["library"; "everyday"] 0 "March 5, 2025";
    vid "vid-003" "https://www.w3schools.com/html/movie.mp4"
        "https://source.unsplash.com/random/800x600?movie,cinema"
        "Generic movie trailer"
        ["library"; "videos"] 0 "March 5, 2025";
    img "img-011" "https://source.unsplash.com/random/800x800?wildlife,bird"
        "Colorful bird perched on a branch"
        ["library"; "animals"] 0 "March 5, 2025";
    (* January 2025 *)
    img "img-012" "/source/Pics/identity_veeshna_04.jpg"
        "Cozy cabin in a snowy landscape"
        ["library"; "nature"; "trips"] 0 "January 20, 2025";
    img "img-013"
        "https://source.unsplash.com/random/600x800?fireworks,celebration"
        "Fireworks exploding in night sky"
        ["library"; "celebration"; "events"] 1 "January 20, 2025" ].

Local Close Scope string_scope.

Definition isTableEmpty (db : Sqlite.table) : bool :=
  (Sqlite.count db =? 0)%Z.

(** The parameters [insertStmt.run] binds for one seed item. *)
Definition seedRow (item : mockItem) : Row.t :=
  {| Row.id := id item;
     Row.type := type item;
     Row.src := src item;
     Row.alt := Some (alt item);
     Row.poster :=
       if JSString.truthy (poster item) then poster item else None;
     Row.isFavorite := isFavorite item;
     Row.dateGroup := dateGroup item;
     Row.categories := Some (JSON.stringifyStrings (categories item)) |}.

(** The [for ... of] loop of the seeding: a failing insert is thrown. *)
Fixpoint seed (items : list mockItem) (db : Sqlite.table)
  : option Sqlite.table :=
  match items with
  | [] => Some db
  | item :: rest =>
      match Sqlite.insert db (seedRow item) with
      | Some db' => seed rest db'
      | None => None
      end
  end.

(** [initializeDatabase()] on the stored table (a database file that does
    not exist yet is the empty table). [None]: an error was caught and the
    process exited. *)
Definition initializeDatabase (db : Sqlite.table) : option Sqlite.table :=
  if isTableEmpty db then seed initialMockGalleryItems db else Some db.

End Db.

(* ================================================================== *)
(** ** [app.js] *)

(** A gallery item as the API returns it: the row with [isFavorite] as a
    boolean and [categories] parsed. *)
Module Item.
Record t := {
  id : jsstring;
  type : jsstring;
  src : jsstring;
  alt : option jsstring;
  poster : option jsstring;
  isFavorite : bool;
  dateGroup : jsstring;
  categories : JSON.value
}.
End Item.

(** An entry of [groupedData]. *)
Module Group.
Record t := {
  id : jsstring;
  date : jsstring;
  items : list Item.t
}.

(** [group.items.push(item)] *)
Definition push (g : t) (item : Item.t) : t :=
  {| id := id g; date := date g; items := items g ++ [item] |}.
End Group.

Module Http.
(** [res.status(n).json(body)], and the same with an [{ error }] body. *)
Inductive response (A : Type) :=
| Json (status : nat) (body : A)
| Error (status : nat) (error : string).
Arguments Error {A} status error.

(** [req.file] as multer leaves it. *)
Record file := {
  originalname : jsstring;
  mimetype : jsstring;
  filename : jsstring
}.

(** The upload request: [req.file] and the fields of [req.body]. *)
Record upload := {
  mediaFile : option file;
  alt : option jsstring;
  categories : option jsstring;
  dateGroup : option jsstring
}.

Record favoriteReply := {
  favoriteMessage : string;
  favoriteId : jsstring;
  isFavorite : bool
}.

Record deleteReply := {
  deleteMessage : string;
  deleteId : jsstring
}.
End Http.

Module App.

(** [Boolean(n)] of an integer. *)
Definition Boolean (n : Z) : bool := negb (n =? 0)%Z.

(** [JSON.parse(item.categories || '[]')]: how a stored [categories]
    column is read back. *)
Definition decodeCategories (categories : option jsstring)
  : option JSON.value :=
  JSON.parse (JSString.orElse categories (js "[]")).

Section Engine.
(** The time value of [new Date(label)]; [None] is an invalid date.
    Which labels the engine reads as dates is its own business. *)
Variable Date_parse : jsstring -> option Z.
(** See [JSON.stringify]. *)
Variable numberToString : jsstring -> jsstring.

(** *** [GET /api/gallery] *)

(** The callback of [items.map]; [None] when [JSON.parse] throws. *)
Definition processItem (item : Row.t) : option Item.t :=
  match decodeCategories (Row.categories item) with
  | Some parsed =>
      Some {| Item.id := Row.id item;
              Item.type := Row.type item;
              Item.src := Row.src item;
              Item.alt := Row.alt item;
              Item.poster := Row.poster item;
              Item.isFavorite := Boolean (Row.isFavorite item);
              Item.dateGroup := Row.dateGroup item;
              Item.categories := parsed |}
  | None => None
  end.

Fixpoint processedItems (items : list Row.t) : option (list Item.t) :=
  match items with
  | [] => Some []
  | item :: rest =>
      match processItem item, processedItems rest with
      | Some i, Some is' => Some (i :: is')
      | _, _ => None
      end
  end.

(** What [groupedData[key]] reads: an own property, a property of
    [Object.prototype], or [undefined]. *)
Inductive property :=
| OwnGroup (g : Group.t)
| Inherited
| Undefined.

Definition read (groupedData : JSObject.t Group.t) (key : jsstring)
  : property :=
  match JSObject.getOwn groupedData key with
  | Some g => OwnGroup g
  | None => if JSObject.inherited key then Inherited else Undefined
  end.

(** The callback of [processedItems.forEach]. An inherited property is
    truthy, so no group is created for its name, and it has no [items]:
    the [push] then throws a [TypeError] ([None]). *)
Definition groupItem (groupedData : JSObject.t Group.t) (item : Item.t)
  : option (JSObject.t Group.t) :=
  let key := Item.dateGroup item in
  let groupedData1 :=
    match read groupedData key with
    | Undefined =>
        JSObject.set groupedData key
          {| Group.id := key; Group.date := key; Group.items := [] |}
    | _ => groupedData
    end in
  match read groupedData1 key with
  | OwnGroup g => Some (JSObject.set groupedData1 key (Group.push g item))
  | _ => None
  end.

Fixpoint groupedData (items : list Item.t) (acc : JSObject.t Group.t)
  : option (JSObject.t Group.t) :=
  match items with
  | [] => Some acc
  | item :: rest =>
      match groupItem acc item with
      | Some acc' => groupedData rest acc'
      | None => None
      end
  end.

(** [(a, b) => new Date(b.date) - new Date(a.date)] *)
Definition byDateDescending (a b : Group.t) : option Z :=
  match Date_parse (Group.date b), Date_parse (Group.date a) with
  | Some tb, Some ta => Some (tb - ta)%Z
  | _, _ => None
  end.

(** The grouping of the processed items: [None] when it throws. *)
Definition sortedGroupedData (items : list Item.t)
  : option (list Group.t) :=
  match groupedData items [] with
  | Some o => Some (JSArray.sort byDateDescending (JSObject.values o))
  | None => None
  end.

Definition getGallery (db : Sqlite.table) : Http.response (list Group.t) :=
  match processedItems (Sqlite.all db) with
  | Some items =>
      match sortedGroupedData items with
      | Some groups => Http.Json 200 groups
      | None => Http.Error 500 "Failed to fetch gallery items"
      end
  | None => Http.Error 500 "Failed to fetch gallery items"
  end.

(** *** [POST /api/gallery] *)

(** [categories ? JSON.parse(categories) : []], and [[]] when the
    parse throws. *)
Definition parsedCategories (categories : option jsstring) : JSON.value :=
  if JSString.truthy categories then
    match JSON.parse (JSString.orElse categories []) with
    | Some v => v
    | None => JSON.JArr []
    end
  else JSON.JArr [].

Definition mediaType (mimetype : jsstring) : jsstring :=
  if JSString.startsWith mimetype (js "image/")
  then js "image" else js "video".

(** The handler, given what [Date.now()] and
    [Math.random().toString(36).substring(2, 9)] return.  An absent
    [dateGroup] field is bound as NULL, which the column rejects. *)
Definition postGallery (now : N) (random : jsstring)
    (req : Http.upload) (db : Sqlite.table)
  : Http.response Item.t * Sqlite.table :=
  match Http.mediaFile req with
  | None => (Http.Error 400 "No file uploaded.", db)
  | Some file =>
      let type := mediaType (Http.mimetype file) in
      let src := js "/uploads/" ++ Http.filename file in
      let id := js "uploaded-" ++ JSString.ofN now ++ js "-" ++ random in
      let parsed := parsedCategories (Http.categories req) in
      let alt := JSString.orElse (Http.alt req) (Http.originalname file) in
      match Http.dateGroup req with
      | None => (Http.Error 500 "Failed to upload item", db)
      | Some dateGroup =>
          let row :=
            {| Row.id := id; Row.type := type; Row.src := src;
               Row.alt := Some alt; Row.poster := None;
               Row.isFavorite := 0; Row.dateGroup := dateGroup;
               Row.categories :=
                 Some (JSON.stringify numberToString parsed) |} in
          match Sqlite.insert db row with
          | None => (Http.Error 500 "Failed to upload item", db)
          | Some db' =>
              let newItem :=
                {| Item.id := id; Item.type := type; Item.src := src;
                   Item.alt := Some alt; Item.poster := None;
                   Item.isFavorite := false;
                   Item.dateGroup := dateGroup;
                   Item.categories := parsed |} in
              (Http.Json 201 newItem, db')
          end
      end
  end.

End Engine.

(** *** [PUT /api/gallery/:id/favorite] *)

Definition newFavoriteStatus (isFavorite : Z) : Z :=
  if (isFavorite =? 0)%Z then 1%Z else 0%Z.

Definition putFavorite (itemId : jsstring) (db : Sqlite.table)
  : Http.response Http.favoriteReply * Sqlite.table :=
  match Sqlite.get db itemId with
  | None => (Http.Error 404 "Item not found", db)
  | Some item =>
      let status := newFavoriteStatus (Row.isFavorite item) in
      (Http.Json 200
         {| Http.favoriteMessage := "Favorite status updated";
            Http.favoriteId := itemId;
            Http.isFavorite := Boolean status |},
       Sqlite.updateFavorite db status itemId)
  end.

(** *** [DELETE /api/gallery/:id] *)

(** The handler; the third component is the base name that is joined to
    the upload directory and handed to [fs.unlink], if any. *)
Definition deleteGallery (itemId : jsstring) (db : Sqlite.table)
  : Http.response Http.deleteReply * Sqlite.table * option jsstring :=
  match Sqlite.get db itemId with
  | None => (Http.Error 404 "Item not found", db, None)
  | Some item =>
      let (db', changes) := Sqlite.delete db itemId in
      if (changes =? 0)%nat
      then (Http.Error 404 "Item not found in database", db', None)
      else
        (Http.Json 200
           {| Http.deleteMessage := "Item deleted successfully";
              Http.deleteId := itemId |},
         db',
         if JSString.startsWith (Row.src item) (js "/uploads/")
         then Some (Path.basename (Row.src item)) else None)
  end.

End App.

(* ================================================================== *)
(** ** The rest of [app.js] and [db.js] *)

(** The disk storage of multer. *)
Module Multer.

(** [filename]: [Date.now() + '-' + file.originalname]. *)
Definition filename (now : N) (originalname : jsstring) : jsstring :=
  JSString.ofN now ++ js "-" ++ originalname.

End Multer.

(** The [id] the upload handler makes from [Date.now()] and the random
    suffix. *)
Definition uploadId (now : N) (random : jsstring) : jsstring :=
  js "uploaded-" ++ JSString.ofN now ++ js "-" ++ random.

(** The process: the module variable [db] of [db.js], set by
    [initializeDatabase()], and the table of the database file. *)
Module Server.

Record state := {
  connected : bool;
  table : Sqlite.table
}.

(** [getDb()]: throws ([None]) while [db] is not set. *)
Definition getDb (s : state) : option Sqlite.table :=
  if connected s then Some (table s) else None.

(** [startServer()]: [await initializeDatabase()], then [app.listen].
    [None]: the process exited. *)
Definition startServer (s : state) : option state :=
  match Db.initializeDatabase (table s) with
  | Some seeded => Some {| connected := true; table := seeded |}
  | None => None
  end.

End Server.

(* ================================================================== *)
(** ** A date reader for the examples *)

(** The labels of the seed data are written [Month D, YYYY]. This reader
    takes exactly that form, to midnight UTC in milliseconds, and nothing
    else; it stands for the engine in the concrete examples below, on labels
    that every engine reads the same way.  The general statements are about
    any reader. *)
Module MonthDayYear.

Local Open Scope Z_scope.

Definition monthNames : list jsstring :=
  [ js "January"; js "February"; js "March"; js "April"; js "May";
    js "June"; js "July"; js "August"; js "September"; js "October";
    js "November"; js "December" ].

Fixpoint monthNumber (names : list jsstring) (n : Z) (name : jsstring)
  : option Z :=
  match names with
  | [] => None
  | m :: rest =>
      if JSString.eqb m name then Some n else monthNumber rest (n + 1) name
  end.

(** Days from 1970-01-01 to the given civil date. *)
Definition daysFromCivil (y m d : Z) : Z :=
  let y' := if m <=? 2 then y - 1 else y in
  let era := y' / 400 in
  let yoe := y' - era * 400 in
  let mp := if m <=? 2 then m + 9 else m - 3 in
  let doy := (153 * mp + 2) / 5 + d - 1 in
  let doe := yoe * 365 + yoe / 4 - yoe / 100 + doy in
  era * 146097 + doe - 719468.

Fixpoint word (s : jsstring) : jsstring * jsstring :=
  match s with
  | c :: s' =>
      if (c =? 32)%N then ([], s)
      else let (w, rest) := word s' in (c :: w, rest)
  | [] => ([], [])
  end.

Definition parse (label : jsstring) : option Z :=
  let (name, rest) := word label in
  match monthNumber monthNames 1 name, rest with
  | Some m, 32%N :: rest1 =>
      let (ds, rest2) := JSON.spanDigits rest1 in
      match rest2 with
      | 44%N :: 32%N :: ys =>
          let d := Z.of_N (JSString.digitsValue ds) in
          if forallb JSString.isDigit ys && (length ys =? 4)%nat
             && (1 <=? d) && (d <=? 31) && (length ds <=? 2)%nat
          then Some (86400000 *
                     daysFromCivil (Z.of_N (JSString.digitsValue ys)) m d)
          else None
      | _ => None
      end
  | _, _ => None
  end.

End MonthDayYear.

(* ================================================================== *)
(** ** Vocabulary of the statements *)

(** The two success answers. *)
Definition favoriteUpdated (itemId : jsstring) (isFavorite : bool)
  : Http.response Http.favoriteReply :=
  Http.Json 200 {| Http.favoriteMessage := "Favorite status updated";
                   Http.favoriteId := itemId;
                   Http.isFavorite := isFavorite |}.

Definition itemDeleted (itemId : jsstring) : Http.response Http.deleteReply :=
  Http.Json 200 {| Http.deleteMessage := "Item deleted successfully";
                   Http.deleteId := itemId |}.

(** The text [JSON.parse] is given for a form field: an absent field is
    [undefined], which it reads as the text undefined. *)
Definition fieldText (field : option jsstring) : jsstring :=
  match field with
  | Some text => text
  | None => js "undefined"
  end.

(** The grouping, said directly: one group for each distinct label, in the
    order an object enumerates its keys, holding the items of that label in
    their order. *)
Module Grouping.

Definition addLabel (seen : list jsstring) (label : jsstring)
  : list jsstring :=
  if existsb (JSString.eqb label) seen then seen else seen ++ [label].

(** The labels, each once, in order of first occurrence. *)
Definition distinct (labels : list jsstring) : list jsstring :=
  fold_left addLabel labels [].

Definition labelled (label : jsstring) (item : Item.t) : bool :=
  JSString.eqb (Item.dateGroup item) label.

Definition groupOf (items : list Item.t) (label : jsstring) : Group.t :=
  {| Group.id := label; Group.date := label;
     Group.items := filter (labelled label) items |}.

(** Keys in enumeration order: array indices ascending, then the rest
    as created. *)
Definition propertyOrder (labels : list jsstring) : list jsstring :=
  map fst (JSObject.ownProperties (map (fun k => (k, tt)) labels)).

Definition labels (items : list Item.t) : list jsstring :=
  map Item.dateGroup items.

Definition expected (items : list Item.t) : list Group.t :=
  map (groupOf items) (propertyOrder (distinct (labels items))).

(** The object [groupedData] after the loop. *)
Definition object (items : list Item.t) : JSObject.t Group.t :=
  map (fun k => (k, groupOf items k)) (distinct (labels items)).

Section Dates.
Variable Date_parse : jsstring -> option Z.

(** [a] is dated, and so is [b], no later than [a]. *)
Definition notOlder (a b : Group.t) : Prop :=
  exists ta tb,
    Date_parse (Group.date a) = Some ta
    /\ Date_parse (Group.date b) = Some tb
    /\ (tb <= ta)%Z.

(** Of two dated groups the one that comes first is not the older. *)
Definition recentFirst (groups : list Group.t) : Prop :=
  forall l1 a l2 b l3 ta tb,
    groups = l1 ++ a :: l2 ++ b :: l3 ->
    Date_parse (Group.date a) = Some ta ->
    Date_parse (Group.date b) = Some tb ->
    (tb <= ta)%Z.

(** No dated group comes after an undated one. *)
Definition unparseableLast (groups : list Group.t) : Prop :=
  forall l1 a l2 b l3,
    groups = l1 ++ a :: l2 ++ b :: l3 ->
    Date_parse (Group.date a) = None ->
    Date_parse (Group.date b) = None.
End Dates.

End Grouping.

(** A text of decimal digits; a text without a slash. *)
Definition isDigits (s : jsstring) : Prop :=
  Forall (fun c => JSString.isDigit c = true) s.

Definition noSlash (s : jsstring) : Prop :=
  Forall (fun c => Path.isSlash c = false) s.

(** The row the upload handler writes for the item it answers with. *)
Definition rowOf (num : jsstring -> jsstring) (item : Item.t) : Row.t :=
  {| Row.id := Item.id item; Row.type := Item.type item;
     Row.src := Item.src item; Row.alt := Item.alt item;
     Row.poster := Item.poster item;
     Row.isFavorite := if Item.isFavorite item then 1%Z else 0%Z;
     Row.dateGroup := Item.dateGroup item;
     Row.categories := Some (JSON.stringify num (Item.categories item)) |}.

(** The favorite column holds 0 or 1 in every row. *)
Definition flags01 (db : Sqlite.table) : Prop :=
  Forall (fun r => Row.isFavorite r = 0%Z \/ Row.isFavorite r = 1%Z) db.

(** [a] comes before [b] in the list. *)
Inductive precedes (A : Type) (a b : A) : list A -> Prop :=
| precedes_here (l : list A) : In b l -> precedes a b (a :: l)
| precedes_later (x : A) (l : list A) : precedes a b l -> precedes a b (x :: l).

(** A row without its favorite flag. *)
Definition unflagged (r : Row.t) : Row.t := Row.withFavorite r 0.

(** Descending order of a key. *)
Definition descendingBy (A : Type) (key : A -> Z) (a b : A) : Prop :=
  (key b <= key a)%Z.

(** ** Sample data of the examples *)

Definition sampleRow (itemId : string) (isFavorite : Z) : Row.t :=
  {| Row.id := js itemId; Row.type := js "image";
     Row.src := js "/uploads/1746057600000-a.png"; Row.alt := Some (js "a.png");
     Row.poster := None; Row.isFavorite := isFavorite;
     Row.dateGroup := js "May 1, 2025"; Row.categories := Some (js "[]") |}.

Definition sampleUpload : Http.upload :=
  {| Http.mediaFile :=
       Some {| Http.originalname := js "clip.mp4";
               Http.mimetype := js "video/mp4";
               Http.filename := js "1746057600000-clip.mp4" |};
     Http.alt := None;
     Http.categories := Some (js "[library");
     Http.dateGroup := Some (js "May 1, 2025") |}.

Definition sampleCreated : Item.t :=
  {| Item.id := js "uploaded-1746057600123-k3j9x2a";
     Item.type := js "video";
     Item.src := js "/uploads/1746057600000-clip.mp4";
     Item.alt := Some (js "clip.mp4");
     Item.poster := None;
     Item.isFavorite := false;
     Item.dateGroup := js "May 1, 2025";
     Item.categories := JSON.JArr [] |}.

Definition sampleItem (itemId dateGroup : string) : Item.t :=
  {| Item.id := js itemId; Item.type := js "image";
     Item.src := js "/uploads/1746057600000-a.png";
     Item.alt := Some (js "a.png"); Item.poster := None;
     Item.isFavorite := false; Item.dateGroup := js dateGroup;
     Item.categories := JSON.JArr [] |}.

(* ================================================================== *)
(** * Properties *)

(** ** Strings *)

Lemma eqb_eq (a b : jsstring) : JSString.eqb a b = true <-> a = b.
Proof.
  revert b; induction a as [|x a IH]; destruct b as [|y b]; simpl;
    try (split; [discriminate | discriminate]); try tauto.
  rewrite andb_true_iff, N.eqb_eq, IH.
  split; [intros [-> ->]; reflexivity | intros H; inversion H; auto].
Qed.

Lemma eqb_refl (a : jsstring) : JSString.eqb a a = true.
Proof. apply eqb_eq; reflexivity. Qed.

Lemma eqb_neq (a b : jsstring) : JSString.eqb a b = false <-> a <> b.
Proof.
  rewrite <- eqb_eq. destruct (JSString.eqb a b); split; congruence.
Qed.

Lemma eqb_sym (a b : jsstring) : JSString.eqb a b = JSString.eqb b a.
Proof.
  destruct (JSString.eqb a b) eqn:E.
  - apply eqb_eq in E; subst; symmetry; apply eqb_refl.
  - symmetry; apply eqb_neq; apply eqb_neq in E; congruence.
Qed.

(** ** JSON: what is written is read back *)

Section JsonRoundTrip.
Import JSON.

Lemma hexValue_hexDigit (d : N) : (d < 16)%N -> hexValue (hexDigit d) = Some d.
Proof.
  intros H. unfold hexDigit, hexValue.
  destruct (N.ltb_spec d 10).
  - replace ((48 <=? 48 + d)%N && (48 + d <=? 57)%N) with true.
    + f_equal; lia.
    + symmetry; apply andb_true_iff; split; apply N.leb_le; lia.
  - replace ((48 <=? 87 + d)%N && (87 + d <=? 57)%N) with false.
    + replace ((97 <=? 87 + d)%N && (87 + d <=? 102)%N) with true.
      * f_equal; lia.
      * symmetry; apply andb_true_iff; split; apply N.leb_le; lia.
    + symmetry; apply andb_false_iff; right; apply N.leb_gt; lia.
Qed.

Lemma hex4_digits (c : N) :
  (c < 65536)%N ->
  hex4 (hexDigit ((c / 4096) mod 16)) (hexDigit ((c / 256) mod 16))
       (hexDigit ((c / 16) mod 16)) (hexDigit (c mod 16)) = Some c.
Proof.
  intros H. unfold hex4.
  rewrite !hexValue_hexDigit by (apply N.mod_lt; discriminate).
  f_equal. zify. Z.to_euclidean_division_equations. lia.
Qed.

Lemma parseChars_unicodeEscape (c : N) (rest : jsstring) :
  (c < 65536)%N ->
  parseChars (unicodeEscape c ++ rest) = consFst c (parseChars rest).
Proof.
  intros H. unfold unicodeEscape.
  cbn [app parseChars N.eqb Pos.eqb].
  rewrite hex4_digits by assumption. reflexivity.
Qed.

(** A code unit that needs no escape is read as itself. *)
Lemma parseChars_plain (c : N) (rest : jsstring) :
  (32 <= c)%N -> c <> 34%N -> c <> 92%N ->
  parseChars (c :: rest) = consFst c (parseChars rest).
Proof.
  intros H32 H34 H92. cbn [parseChars].
  destruct (N.eqb_spec c 34); [contradiction|].
  destruct (N.eqb_spec c 92); [contradiction|].
  destruct (N.ltb_spec c 32); [lia|]. reflexivity.
Qed.

Lemma parseChars_quoteCodeUnit (c : N) (rest : jsstring) :
  parseChars (quoteCodeUnit c ++ rest) = consFst c (parseChars rest).
Proof.
  unfold quoteCodeUnit.
  repeat match goal with
         | |- context [N.eqb c ?k] =>
             destruct (N.eqb_spec c k); [subst c; reflexivity|]
         end.
  destruct (N.ltb_spec c 32).
  - apply parseChars_unicodeEscape; lia.
  - apply parseChars_plain; assumption.
Qed.

Lemma surrogate_plain (c : N) :
  isLeadSurrogate c = true \/ isTrailSurrogate c = true ->
  (32 <= c)%N /\ c <> 34%N /\ c <> 92%N /\ (c < 65536)%N.
Proof.
  unfold isLeadSurrogate, isTrailSurrogate.
  rewrite !andb_true_iff, !N.leb_le. lia.
Qed.

Lemma parseChars_quoteChars_bounded (n : nat) :
  forall (s rest : jsstring), (length s <= n)%nat ->
    parseChars (quoteChars s ++ 34%N :: rest) = Some (s, rest).
Proof.
  induction n as [|n IH]; intros s rest Hlen.
  - destruct s; [reflexivity | simpl in Hlen; lia].
  - destruct s as [|c s]; [reflexivity|].
    simpl in Hlen. cbn [quoteChars].
    destruct (isLeadSurrogate c) eqn:Hlead.
    + destruct (surrogate_plain c (or_introl Hlead)) as (H1 & H2 & H3 & H4).
      destruct s as [|d s].
      * rewrite parseChars_unicodeEscape by assumption. reflexivity.
      * destruct (isTrailSurrogate d) eqn:Htrail.
        -- destruct (surrogate_plain d (or_intror Htrail))
             as (G1 & G2 & G3 & G4).
           cbn [app]. rewrite parseChars_plain by assumption.
           rewrite parseChars_plain by assumption.
           rewrite IH by (simpl in Hlen; lia). reflexivity.
        -- rewrite <- app_assoc, parseChars_unicodeEscape by assumption.
           rewrite IH by lia. reflexivity.
    + destruct (isTrailSurrogate c) eqn:Htrail.
      * destruct (surrogate_plain c (or_intror Htrail)) as (H1 & H2 & H3 & H4).
        rewrite <- app_assoc, parseChars_unicodeEscape by assumption.
        rewrite IH by lia. reflexivity.
      * rewrite <- app_assoc, parseChars_quoteCodeUnit.
        rewrite IH by lia. reflexivity.
Qed.

(** A quoted string is read back, whatever follows the closing quote. *)
Lemma parseChars_quoteChars (s rest : jsstring) :
  parseChars (quoteChars s ++ 34%N :: rest) = Some (s, rest).
Proof. apply (parseChars_quoteChars_bounded (n := length s)); lia. Qed.

Lemma parseValue_quote (fuel : nat) (s rest : jsstring) :
  parseValue (S fuel) (quote s ++ rest) = Some (JStr s, rest).
Proof.
  unfold quote. cbn [app parseValue skipWs isWhitespace N.eqb Pos.eqb orb].
  rewrite <- app_assoc. cbn [app].
  rewrite parseChars_quoteChars. reflexivity.
Qed.

Lemma parseElements_S (fuel : nat) (s : jsstring) :
  parseElements (S fuel) s =
  match parseValue fuel s with
  | None => None
  | Some (v, s1) =>
      match skipWs s1 with
      | [] => None
      | c :: s2 =>
          if (c =? 93)%N then Some ([v], s2)
          else if (c =? 44)%N then
            match parseElements fuel s2 with
            | Some (vs, rest) => Some (v :: vs, rest)
            | None => None
            end
          else None
      end
  end.
Proof. reflexivity. Qed.

Lemma parseElements_strings (l : list jsstring) :
  forall (x : jsstring) (fuel : nat) (rest : jsstring),
    (length l + 2 <= fuel)%nat ->
    parseElements fuel (commaSep (map quote (x :: l)) ++ 93%N :: rest)
    = Some (map JStr (x :: l), rest).
Proof.
  induction l as [|y l IH]; intros x fuel rest Hfuel.
  - destruct fuel as [|[|fuel]]; try (simpl in Hfuel; lia).
    cbn [map commaSep]. rewrite parseElements_S.
    rewrite parseValue_quote. reflexivity.
  - destruct fuel as [|[|fuel]]; try (simpl in Hfuel; lia).
    change (commaSep (map quote (x :: y :: l)))
      with (quote x ++ 44%N :: commaSep (map quote (y :: l))).
    rewrite <- app_assoc. rewrite parseElements_S.
    rewrite parseValue_quote.
    cbn [app skipWs isWhitespace N.eqb Pos.eqb orb].
    rewrite IH by (simpl in Hfuel |- *; lia). reflexivity.
Qed.

Lemma commaSep_quote_length (l : list jsstring) :
  (length l <= length (commaSep (map quote l)))%nat.
Proof.
  induction l as [|x l IH]; [simpl; lia|].
  destruct l as [|y l]; [simpl; lia|].
  change (commaSep (map quote (x :: y :: l)))
    with (quote x ++ 44%N :: commaSep (map quote (y :: l))).
  rewrite length_app.
  change (length (44%N :: commaSep (map quote (y :: l))))
    with (S (length (commaSep (map quote (y :: l))))).
  change (length (x :: y :: l)) with (S (length (y :: l))). lia.
Qed.

Lemma commaSep_quote_head (x : jsstring) (l : list jsstring) :
  exists tl, commaSep (map quote (x :: l)) = 34%N :: tl.
Proof. destruct l; simpl; eexists; reflexivity. Qed.

Lemma parseValue_array_of_string (fuel : nat) (tl : jsstring) :
  parseValue (S fuel) (91%N :: 34%N :: tl) =
  match parseElements fuel (34%N :: tl) with
  | Some (elems, rest) => Some (JArr elems, rest)
  | None => None
  end.
Proof. reflexivity. Qed.

Lemma length_stringifyStrings (l : list jsstring) :
  (length l + 2 <= length (stringifyStrings l))%nat.
Proof.
  pose proof (commaSep_quote_length l) as Hlen.
  unfold stringifyStrings.
  change (length (91%N :: commaSep (map quote l) ++ [93%N]))
    with (S (length (commaSep (map quote l) ++ [93%N]))).
  rewrite length_app. simpl length at 3. lia.
Qed.

Lemma parseValue_stringifyStrings (fuel : nat) (l : list jsstring) :
  (length l + 2 <= fuel)%nat ->
  parseValue (S fuel) (stringifyStrings l) = Some (JArr (map JStr l), []).
Proof.
  intros Hfuel. unfold stringifyStrings.
  destruct l as [|x l]; [reflexivity|].
  destruct (commaSep_quote_head x l) as [tl Htl].
  rewrite Htl. change ((34%N :: tl) ++ [93%N]) with (34%N :: tl ++ [93%N]).
  rewrite parseValue_array_of_string.
  change (34%N :: tl ++ [93%N]) with ((34%N :: tl) ++ [93%N]).
  rewrite <- Htl.
  rewrite (parseElements_strings l x (fuel := fuel) []).
  - reflexivity.
  - simpl in Hfuel. lia.
Qed.

Lemma parse_stringifyStrings (l : list jsstring) :
  parse (stringifyStrings l) = Some (JArr (map JStr l)).
Proof.
  unfold parse.
  rewrite parseValue_stringifyStrings; [reflexivity|].
  pose proof (length_stringifyStrings l). lia.
Qed.

(** The general printer agrees with the printer of string arrays. *)
Lemma stringify_strings (num : jsstring -> jsstring) (l : list jsstring) :
  stringify num (JArr (map JStr l)) = stringifyStrings l.
Proof.
  unfold stringifyStrings. cbn [stringify]. rewrite map_map. reflexivity.
Qed.

End JsonRoundTrip.

(** ** JSON: the fuel of the parser is enough *)

Section JsonFuel.
Import JSON.

Lemma skipWs_length (s : jsstring) : (length (skipWs s) <= length s)%nat.
Proof.
  induction s as [|c s IH]; simpl; [lia|].
  destruct (isWhitespace c); simpl; lia.
Qed.

Lemma expect_length (c : N) (s rest : jsstring) :
  expect c s = Some rest -> length s = S (length rest).
Proof.
  destruct s as [|x s]; simpl; [discriminate|].
  destruct (x =? c)%N; [|discriminate]. intros H; inversion H; reflexivity.
Qed.

Lemma consFst_Some (c : N) (r : option (jsstring * jsstring))
    (str rest : jsstring) :
  consFst c r = Some (str, rest) -> exists str', r = Some (str', rest).
Proof.
  destruct r as [[str' rest']|]; simpl; [|discriminate].
  intros H; inversion H; subst. eauto.
Qed.

Lemma parseChars_length_bounded (n : nat) :
  forall s str rest,
    (length s <= n)%nat -> parseChars s = Some (str, rest) ->
    (length rest < length s)%nat.
Proof.
  induction n as [|n IH]; intros s str rest Hn H.
  - destruct s; [discriminate | simpl in Hn; lia].
  - destruct s as [|c s1]; [discriminate|].
    simpl in Hn. cbn [parseChars] in H.
    destruct (c =? 34)%N; [inversion H; subst; simpl; lia|].
    destruct (c =? 92)%N.
    + destruct s1 as [|e s2]; [discriminate|]. simpl in Hn.
      destruct (e =? 117)%N.
      * destruct s2 as [|h1 [|h2 [|h3 [|h4 s3]]]]; try discriminate.
        destruct (hex4 h1 h2 h3 h4); [|discriminate].
        apply consFst_Some in H. destruct H as [str' H].
        apply IH in H; simpl in *; lia.
      * destruct (unescape e); [|discriminate].
        apply consFst_Some in H. destruct H as [str' H].
        apply IH in H; simpl in *; lia.
    + destruct (c <? 32)%N; [discriminate|].
      apply consFst_Some in H. destruct H as [str' H].
      apply IH in H; simpl in *; lia.
Qed.

Lemma parseChars_length (s str rest : jsstring) :
  parseChars s = Some (str, rest) -> (length rest < length s)%nat.
Proof. apply (parseChars_length_bounded (n := length s)). lia. Qed.

Lemma spanDigits_length (s ds rest : jsstring) :
  spanDigits s = (ds, rest) -> length s = (length ds + length rest)%nat.
Proof.
  revert ds rest. induction s as [|c s IH]; simpl; intros ds rest H.
  - inversion H; reflexivity.
  - destruct (JSString.isDigit c).
    + destruct (spanDigits s) as [ds' rest'].
      inversion H; subst. simpl. rewrite (IH ds' rest eq_refl). reflexivity.
    + inversion H; subst. reflexivity.
Qed.

Lemma parseDigits_length (s ds rest : jsstring) :
  parseDigits s = Some (ds, rest) -> (length rest < length s)%nat.
Proof.
  unfold parseDigits. destruct (spanDigits s) as [[|d ds'] rest'] eqn:E;
    [discriminate|].
  intros H; inversion H; subst. apply spanDigits_length in E. simpl in E. lia.
Qed.

Lemma parseNumber_length (s n rest : jsstring) :
  parseNumber s = Some (n, rest) -> (length rest < length s)%nat.
Proof.
  unfold parseNumber.
  assert (Hminus : forall s0,
             snd (match expect 45 s with
                  | Some s' => ([45%N], s')
                  | None => ([], s)
                  end) = s0 -> (length s0 <= length s)%nat).
  { intros s0. destruct (expect 45 s) eqn:E; simpl; intros <-; [|lia].
    apply expect_length in E. lia. }
  destruct (match expect 45 s with
            | Some s' => ([45%N], s')
            | None => ([], s)
            end) as [minus s0].
  specialize (Hminus s0 eq_refl).
  destruct (parseInt s0) as [[i s1]|] eqn:Ei; [|discriminate].
  destruct (parseFrac s1) as [[f s2]|] eqn:Ef; [|discriminate].
  destruct (parseExp s2) as [[e s3]|] eqn:Ee; [|discriminate].
  intros H; inversion H; subst.
  assert (H1 : (length s1 < length s0)%nat).
  { unfold parseInt in Ei. destruct s0 as [|c s']; [discriminate|].
    destruct (c =? 48)%N; [inversion Ei; subst; simpl; lia|].
    destruct (JSString.isDigit c); [|discriminate].
    destruct (spanDigits s') as [ds r] eqn:E. inversion Ei; subst.
    apply spanDigits_length in E. simpl. lia. }
  assert (H2 : (length s2 <= length s1)%nat).
  { unfold parseFrac in Ef. destruct (expect 46 s1) as [s'|] eqn:E.
    - destruct (parseDigits s') as [[ds r]|] eqn:Ed; [|discriminate].
      inversion Ef; subst. apply expect_length in E.
      apply parseDigits_length in Ed. lia.
    - inversion Ef; subst. lia. }
  assert (H3 : (length rest <= length s2)%nat).
  { unfold parseExp in Ee. destruct s2 as [|x s']; [inversion Ee; subst; lia|].
    destruct ((x =? 101)%N || (x =? 69)%N); [|inversion Ee; subst; lia].
    destruct (parseSign s') as [sign s''] eqn:Es.
    destruct (parseDigits s'') as [[ds r]|] eqn:Ed; [|discriminate].
    inversion Ee; subst. apply parseDigits_length in Ed.
    assert ((length s'' <= length s')%nat).
    { unfold parseSign in Es. destruct s' as [|g t']; [inversion Es; subst; lia|].
      destruct ((g =? 43)%N || (g =? 45)%N); inversion Es; subst; simpl; lia. }
    simpl. lia. }
  lia.
Qed.

Lemma startsWith_length (s word : jsstring) :
  JSString.startsWith s word = true ->
  length s = (length word + length (skipn (length word) s))%nat.
Proof.
  revert s. induction word as [|p word IH]; intros s; simpl; [reflexivity|].
  destruct s as [|c s]; simpl; [discriminate|].
  destruct (p =? c)%N; simpl; [|discriminate].
  intros H. rewrite (IH s H) at 1. reflexivity.
Qed.

Lemma parseLiteral_length (word : jsstring) (v v' : value)
    (s rest : jsstring) :
  word <> [] -> parseLiteral word v s = Some (v', rest) ->
  (length rest < length s)%nat.
Proof.
  unfold parseLiteral. intros Hword.
  destruct (JSString.startsWith s word) eqn:E; [|discriminate].
  intros H; inversion H; subst. apply startsWith_length in E.
  destruct word; [contradiction|]. simpl in *. lia.
Qed.

Lemma parseValue_S (fuel : nat) (s : jsstring) :
  parseValue (S fuel) s =
  match skipWs s with
  | [] => None
  | c :: s1 =>
      if (c =? 34)%N then
        match parseChars s1 with
        | Some (str, rest) => Some (JStr str, rest)
        | None => None
        end
      else if (c =? 91)%N then
        match expect 93 (skipWs s1) with
        | Some rest => Some (JArr [], rest)
        | None =>
            match parseElements fuel s1 with
            | Some (elems, rest) => Some (JArr elems, rest)
            | None => None
            end
        end
      else if (c =? 123)%N then
        match expect 125 (skipWs s1) with
        | Some rest => Some (JObj [], rest)
        | None =>
            match parseMembers fuel [] s1 with
            | Some (members, rest) => Some (JObj members, rest)
            | None => None
            end
        end
      else if (c =? 116)%N then
        parseLiteral (js "true") (JBool true) (c :: s1)
      else if (c =? 102)%N then
        parseLiteral (js "false") (JBool false) (c :: s1)
      else if (c =? 110)%N then
        parseLiteral (js "null") JNull (c :: s1)
      else
        match parseNumber (c :: s1) with
        | Some (n, rest) => Some (JNum n, rest)
        | None => None
        end
  end.
Proof. reflexivity. Qed.

Lemma parseMembers_S (fuel : nat) (acc : JSObject.t value) (s : jsstring) :
  parseMembers (S fuel) acc s =
  match expect 34 (skipWs s) with
  | None => None
  | Some s1 =>
      match parseChars s1 with
      | None => None
      | Some (k, s2) =>
          match expect 58 (skipWs s2) with
          | None => None
          | Some s3 =>
              match parseValue fuel s3 with
              | None => None
              | Some (v, s4) =>
                  match skipWs s4 with
                  | [] => None
                  | c :: s5 =>
                      if (c =? 125)%N then Some (JSObject.set acc k v, s5)
                      else if (c =? 44)%N
                      then parseMembers fuel (JSObject.set acc k v) s5
                      else None
                  end
              end
          end
      end
  end.
Proof. reflexivity. Qed.

Lemma reads_all (fuel : nat) : readsV fuel /\ readsE fuel /\ readsM fuel.
Proof.
  induction fuel as [|fuel (IHV & IHE & IHM)].
  - repeat split; discriminate.
  - split; [|split].
    + (* values *)
      intros s v rest H. rewrite parseValue_S in H.
      pose proof (skipWs_length s) as Hws.
      destruct (skipWs s) as [|c s1] eqn:Es; [discriminate|].
      simpl in Hws.
      assert (Hnofuel : forall r : option (value * jsstring),
                 (forall g, parseValue (S g) s = r) -> r = Some (v, rest) ->
                 (length rest < length s)%nat ->
                 (length rest < length s)%nat
                 /\ forall g, (length s - length rest <= g)%nat ->
                              parseValue g s = Some (v, rest)).
      { intros r Hr -> Hlen. split; [assumption|].
        intros [|g] Hg; [lia | apply Hr]. }
      destruct (c =? 34)%N eqn:E34.
      { destruct (parseChars s1) as [[str r]|] eqn:Ec; [|discriminate].
        inversion H; subst. pose proof (parseChars_length _ Ec).
        apply (Hnofuel (Some (JStr str, rest))); [|reflexivity|lia].
        intros g. rewrite parseValue_S, Es, E34, Ec. reflexivity. }
      destruct (c =? 91)%N eqn:E91.
      { pose proof (skipWs_length s1) as Hws1.
        destruct (expect 93 (skipWs s1)) as [r|] eqn:Ex.
        - inversion H; subst. pose proof (expect_length _ _ Ex).
          apply (Hnofuel (Some (JArr [], rest))); [|reflexivity|lia].
          intros g. rewrite parseValue_S, Es, E34, E91, Ex. reflexivity.
        - destruct (parseElements fuel s1) as [[elems r]|] eqn:Ee;
            [|discriminate].
          inversion H; subst. destruct (IHE _ _ _ Ee) as [Hlen Hmore].
          split; [lia|]. intros [|g] Hg; [lia|].
          rewrite parseValue_S, Es, E34, E91, Ex, Hmore by lia. reflexivity. }
      destruct (c =? 123)%N eqn:E123.
      { pose proof (skipWs_length s1) as Hws1.
        destruct (expect 125 (skipWs s1)) as [r|] eqn:Ex.
        - inversion H; subst. pose proof (expect_length _ _ Ex).
          apply (Hnofuel (Some (JObj [], rest))); [|reflexivity|lia].
          intros g. rewrite parseValue_S, Es, E34, E91, E123, Ex. reflexivity.
        - destruct (parseMembers fuel [] s1) as [[members r]|] eqn:Em;
            [|discriminate].
          inversion H; subst. destruct (IHM _ _ _ _ Em) as [Hlen Hmore].
          split; [lia|]. intros [|g] Hg; [lia|].
          rewrite parseValue_S, Es, E34, E91, E123, Ex, Hmore by lia.
          reflexivity. }
      destruct (c =? 116)%N eqn:E116.
      { pose proof (parseLiteral_length (word := js "true") _ _
                      ltac:(discriminate) H) as Hlen.
        apply (Hnofuel _ (fun g => eq_trans (parseValue_S g s)
                 ltac:(rewrite Es, E34, E91, E123, E116; reflexivity)) H).
        simpl in Hlen. lia. }
      destruct (c =? 102)%N eqn:E102.
      { pose proof (parseLiteral_length (word := js "false") _ _
                      ltac:(discriminate) H) as Hlen.
        apply (Hnofuel _ (fun g => eq_trans (parseValue_S g s)
                 ltac:(rewrite Es, E34, E91, E123, E116, E102; reflexivity)) H).
        simpl in Hlen. lia. }
      destruct (c =? 110)%N eqn:E110.
      { pose proof (parseLiteral_length (word := js "null") _ _
                      ltac:(discriminate) H) as Hlen.
        apply (Hnofuel _ (fun g => eq_trans (parseValue_S g s)
                 ltac:(rewrite Es, E34, E91, E123, E116, E102, E110;
                       reflexivity)) H).
        simpl in Hlen. lia. }
      destruct (parseNumber (c :: s1)) as [[n r]|] eqn:En; [|discriminate].
      inversion H; subst. pose proof (parseNumber_length _ En) as Hn. simpl in Hn.
      apply (Hnofuel (Some (JNum n, rest))); [|reflexivity|lia].
      intros g.
      rewrite parseValue_S, Es, E34, E91, E123, E116, E102, E110, En.
      reflexivity.
    + (* elements *)
      intros s vs rest H. rewrite parseElements_S in H.
      destruct (parseValue fuel s) as [[v s1]|] eqn:Ev; [|discriminate].
      destruct (IHV _ _ _ Ev) as [Hlen Hmore].
      pose proof (skipWs_length s1) as Hws.
      destruct (skipWs s1) as [|c s2] eqn:Es; [discriminate|]. simpl in Hws.
      destruct (c =? 93)%N eqn:E93.
      { inversion H; subst. split; [lia|]. intros [|g] Hg; [lia|].
        rewrite parseElements_S, Hmore, Es, E93 by lia. reflexivity. }
      destruct (c =? 44)%N eqn:E44; [|discriminate].
      destruct (parseElements fuel s2) as [[vs' r]|] eqn:Ee; [|discriminate].
      inversion H; subst. destruct (IHE _ _ _ Ee) as [Hlen' Hmore'].
      split; [lia|]. intros [|g] Hg; [lia|].
      rewrite parseElements_S, Hmore, Es, E93, E44, Hmore' by lia.
      reflexivity.
    + (* members *)
      intros acc s members rest H. rewrite parseMembers_S in H.
      pose proof (skipWs_length s) as Hws.
      destruct (expect 34 (skipWs s)) as [s1|] eqn:Eq; [|discriminate].
      pose proof (expect_length _ _ Eq) as Hq.
      destruct (parseChars s1) as [[k s2]|] eqn:Ek; [|discriminate].
      pose proof (parseChars_length _ Ek) as Hk.
      pose proof (skipWs_length s2) as Hws2.
      destruct (expect 58 (skipWs s2)) as [s3|] eqn:Ec; [|discriminate].
      pose proof (expect_length _ _ Ec) as Hc.
      destruct (parseValue fuel s3) as [[v s4]|] eqn:Ev; [|discriminate].
      destruct (IHV _ _ _ Ev) as [Hlen Hmore].
      pose proof (skipWs_length s4) as Hws4.
      destruct (skipWs s4) as [|c s5] eqn:Es; [discriminate|]. simpl in Hws4.
      destruct (c =? 125)%N eqn:E125.
      { inversion H; subst. split; [lia|]. intros [|g] Hg; [lia|].
        rewrite parseMembers_S, Eq, Ek, Ec, Hmore, Es, E125 by lia.
        reflexivity. }
      destruct (c =? 44)%N eqn:E44; [|discriminate].
      destruct (IHM _ _ _ _ H) as [Hlen' Hmore'].
      split; [lia|]. intros [|g] Hg; [lia|].
      rewrite parseMembers_S, Eq, Ek, Ec, Hmore, Es, E125, E44 by lia.
      apply Hmore'. lia.
Qed.

(** If any amount of fuel lets a text parse, the amount [parse] gives does:
    [parse] fails only on texts that are not JSON. *)
Theorem parseValue_fuel (fuel : nat) (s : jsstring) (v : value)
    (rest : jsstring) :
  parseValue fuel s = Some (v, rest) ->
  parseValue (S (S (length s))) s = Some (v, rest).
Proof.
  intros H. destruct (reads_all fuel) as [HV _].
  destruct (HV _ _ _ H) as [_ Hmore]. apply Hmore. lia.
Qed.

End JsonFuel.

(** C2. Every sequence of category strings, encoded with [JSON.stringify]
    (by the seeding, and by the upload when the parsed field is such a
    sequence) and read back by [JSON.parse(item.categories || '[]')], is
    the same sequence again, the empty one included; a NULL or empty
    [categories] column reads as the empty sequence and is no error. *)
Theorem categories_round_trip :
  (forall l : list jsstring,
      App.decodeCategories (Some (JSON.stringifyStrings l))
      = Some (JSON.JArr (map JSON.JStr l)))
  /\ (forall (num : jsstring -> jsstring) (l : list jsstring),
         App.decodeCategories
           (Some (JSON.stringify num (JSON.JArr (map JSON.JStr l))))
         = Some (JSON.JArr (map JSON.JStr l)))
  /\ App.decodeCategories None = Some (JSON.JArr [])
  /\ App.decodeCategories (Some []) = Some (JSON.JArr []).
Proof.
  assert (H : forall l : list jsstring,
             App.decodeCategories (Some (JSON.stringifyStrings l))
             = Some (JSON.JArr (map JSON.JStr l))).
  { intros l. unfold App.decodeCategories.
    change (JSString.orElse (Some (JSON.stringifyStrings l)) (js "[]"))
      with (JSON.stringifyStrings l).
    apply parse_stringifyStrings. }
  repeat split.
  - exact H.
  - intros num l. rewrite stringify_strings. apply H.
Qed.

(** ** The table *)

Lemma id_withFavorite (r : Row.t) (v : Z) :
  Row.id (Row.withFavorite r v) = Row.id r.
Proof. reflexivity. Qed.

(** A row is found by [db.get] exactly when some row carries the id. *)
Lemma get_present (db : Sqlite.table) (itemId : jsstring) :
  (exists r, In r db /\ Row.id r = itemId)
  <-> (exists item, Sqlite.get db itemId = Some item).
Proof.
  unfold Sqlite.get. split.
  - intros (r & Hin & Hid).
    destruct (find (Sqlite.hasId itemId) db) as [item|] eqn:E; [eauto|].
    exfalso. apply (find_none _ _ E) in Hin.
    unfold Sqlite.hasId in Hin. rewrite Hid, eqb_refl in Hin. discriminate.
  - intros (item & E). apply find_some in E. destruct E as [Hin Hid].
    exists item. split; [assumption|]. apply eqb_eq. exact Hid.
Qed.

Lemma get_id (db : Sqlite.table) (itemId : jsstring) (item : Row.t) :
  Sqlite.get db itemId = Some item -> Row.id item = itemId /\ In item db.
Proof.
  intros E. apply find_some in E. destruct E as [Hin Hid].
  split; [apply eqb_eq; exact Hid | assumption].
Qed.

Lemma get_updateFavorite_same (db : Sqlite.table) (v : Z)
    (itemId : jsstring) (item : Row.t) :
  Sqlite.get db itemId = Some item ->
  Sqlite.get (Sqlite.updateFavorite db v itemId) itemId
  = Some (Row.withFavorite item v).
Proof.
  unfold Sqlite.get, Sqlite.updateFavorite.
  induction db as [|r db IH]; simpl; [discriminate|].
  destruct (Sqlite.hasId itemId r) eqn:E.
  - intros H; inversion H; subst. simpl.
    unfold Sqlite.hasId in *. rewrite id_withFavorite, E. reflexivity.
  - simpl. rewrite E. exact IH.
Qed.

Lemma get_updateFavorite_other (db : Sqlite.table) (v : Z)
    (itemId other : jsstring) :
  other <> itemId ->
  Sqlite.get (Sqlite.updateFavorite db v itemId) other = Sqlite.get db other.
Proof.
  intros Hne. unfold Sqlite.get, Sqlite.updateFavorite.
  induction db as [|r db IH]; simpl; [reflexivity|].
  destruct (Sqlite.hasId itemId r) eqn:E.
  - unfold Sqlite.hasId in *. rewrite id_withFavorite.
    apply eqb_eq in E. rewrite E.
    replace (JSString.eqb itemId other) with false
      by (symmetry; apply eqb_neq; congruence).
    exact IH.
  - rewrite IH. reflexivity.
Qed.

Lemma updateFavorite_rows (db : Sqlite.table) (v : Z) (itemId : jsstring) :
  forall r, In r (Sqlite.updateFavorite db v itemId) ->
            Row.id r = itemId -> Row.isFavorite r = v.
Proof.
  unfold Sqlite.updateFavorite. intros r Hin Hid.
  apply in_map_iff in Hin. destruct Hin as (r0 & Hr & _).
  destruct (Sqlite.hasId itemId r0) eqn:E.
  - subst r. reflexivity.
  - subst r0. unfold Sqlite.hasId in E. rewrite Hid, eqb_refl in E.
    discriminate.
Qed.

Lemma get_delete_same (db : Sqlite.table) (itemId : jsstring) :
  Sqlite.get (fst (Sqlite.delete db itemId)) itemId = None.
Proof.
  unfold Sqlite.get, Sqlite.delete. simpl.
  induction db as [|r db IH]; simpl; [reflexivity|].
  destruct (Sqlite.hasId itemId r) eqn:E; simpl; [exact IH|].
  rewrite E. exact IH.
Qed.

Lemma get_delete_other (db : Sqlite.table) (itemId other : jsstring) :
  other <> itemId ->
  Sqlite.get (fst (Sqlite.delete db itemId)) other = Sqlite.get db other.
Proof.
  intros Hne. unfold Sqlite.get, Sqlite.delete. simpl.
  induction db as [|r db IH]; simpl; [reflexivity|].
  destruct (Sqlite.hasId itemId r) eqn:E; simpl.
  - unfold Sqlite.hasId in *. apply eqb_eq in E. rewrite E.
    replace (JSString.eqb itemId other) with false
      by (symmetry; apply eqb_neq; congruence).
    exact IH.
  - rewrite IH. reflexivity.
Qed.

Lemma delete_changes (db : Sqlite.table) (itemId : jsstring) (item : Row.t) :
  Sqlite.get db itemId = Some item ->
  (snd (Sqlite.delete db itemId) =? 0)%nat = false.
Proof.
  unfold Sqlite.get, Sqlite.delete. simpl. intros E.
  apply find_some in E. destruct E as [Hin Hid].
  apply Nat.eqb_neq. intros Hlen. apply length_zero_iff_nil in Hlen.
  assert (Hf : In item (filter (Sqlite.hasId itemId) db))
    by (apply filter_In; split; assumption).
  rewrite Hlen in Hf. exact Hf.
Qed.

(** With unique ids, the delete statement takes out the one row that
    [db.get] finds and leaves the others where they are. *)
Lemma delete_exactly (db : Sqlite.table) (itemId : jsstring) (item : Row.t) :
  NoDup (map Row.id db) ->
  Sqlite.get db itemId = Some item ->
  exists before after,
    db = before ++ item :: after
    /\ fst (Sqlite.delete db itemId) = before ++ after.
Proof.
  unfold Sqlite.get, Sqlite.delete. simpl.
  induction db as [|r db IH]; simpl; [discriminate|].
  intros Hnd Hget. inversion Hnd as [|? ? Hnotin Hnd']; subst.
  destruct (Sqlite.hasId itemId r) eqn:E; simpl.
  - inversion Hget; subst. exists [], db. split; [reflexivity|]. simpl.
    unfold Sqlite.hasId in E. apply eqb_eq in E.
    clear IH Hget Hnd Hnd'. induction db as [|r' db IH']; [reflexivity|].
    simpl in *. destruct (Sqlite.hasId itemId r') eqn:E'.
    + exfalso. apply Hnotin. left. unfold Sqlite.hasId in E'.
      apply eqb_eq in E'. congruence.
    + simpl. f_equal. apply IH'. tauto.
  - destruct (IH Hnd' Hget) as (before & after & Hdb & Hdel).
    exists (r :: before), after. simpl. rewrite <- Hdb, Hdel. split; reflexivity.
Qed.

(** *** The primary key

    Every statement the program runs keeps the ids of the table distinct. *)

Lemma hasId_none (db : Sqlite.table) (itemId : jsstring) :
  existsb (Sqlite.hasId itemId) db = false -> ~ In itemId (map Row.id db).
Proof.
  intros H Hin. apply in_map_iff in Hin. destruct Hin as (r & Hid & Hr).
  assert (Hex : existsb (Sqlite.hasId itemId) db = true).
  { apply existsb_exists. exists r. split; [assumption|].
    unfold Sqlite.hasId. rewrite Hid. apply eqb_refl. }
  congruence.
Qed.

Lemma insert_unique (db db' : Sqlite.table) (r : Row.t) :
  NoDup (map Row.id db) -> Sqlite.insert db r = Some db' ->
  NoDup (map Row.id db').
Proof.
  unfold Sqlite.insert. intros Hnd.
  destruct (existsb (Sqlite.hasId (Row.id r)) db) eqn:E; [discriminate|].
  intros H; inversion H; subst. rewrite map_app. simpl.
  apply NoDup_app; [assumption | repeat constructor; simpl; tauto |].
  intros x Hx [<-|[]]. apply (hasId_none _ _ E). assumption.
Qed.

Lemma updateFavorite_ids (db : Sqlite.table) (v : Z) (itemId : jsstring) :
  map Row.id (Sqlite.updateFavorite db v itemId) = map Row.id db.
Proof.
  unfold Sqlite.updateFavorite. rewrite map_map. apply map_ext.
  intros r. destruct (Sqlite.hasId itemId r); reflexivity.
Qed.

Lemma delete_unique (db : Sqlite.table) (itemId : jsstring) :
  NoDup (map Row.id db) -> NoDup (map Row.id (fst (Sqlite.delete db itemId))).
Proof.
  unfold Sqlite.delete. simpl.
  induction db as [|r db IH]; simpl; [constructor|].
  intros Hnd. inversion Hnd as [|? ? Hnotin Hnd']; subst.
  destruct (Sqlite.hasId itemId r); simpl; [apply IH; assumption|].
  constructor; [|apply IH; assumption].
  intros Hin. apply Hnotin. apply in_map_iff in Hin.
  destruct Hin as (x & Hid & Hx). apply filter_In in Hx.
  apply in_map_iff. exists x. tauto.
Qed.

Lemma seed_unique (items : list Db.mockItem) (db db' : Sqlite.table) :
  NoDup (map Row.id db) -> Db.seed items db = Some db' ->
  NoDup (map Row.id db').
Proof.
  revert db. induction items as [|item items IH]; simpl; intros db Hnd H.
  - inversion H; subst. assumption.
  - destruct (Sqlite.insert db (Db.seedRow item)) as [db1|] eqn:E;
      [|discriminate].
    apply (IH db1); [|assumption]. apply (@insert_unique _ _ _ Hnd E).
Qed.

Lemma initializeDatabase_unique (db db' : Sqlite.table) :
  NoDup (map Row.id db) -> Db.initializeDatabase db = Some db' ->
  NoDup (map Row.id db').
Proof.
  unfold Db.initializeDatabase. intros Hnd.
  destruct (Db.isTableEmpty db).
  - apply seed_unique. assumption.
  - intros H; inversion H; subst. assumption.
Qed.

Lemma handlers_unique (db : Sqlite.table) :
  NoDup (map Row.id db) ->
  (forall num now random req,
      NoDup (map Row.id (snd (App.postGallery num now random req db))))
  /\ (forall itemId, NoDup (map Row.id (snd (App.putFavorite itemId db))))
  /\ (forall itemId,
         NoDup (map Row.id (snd (fst (App.deleteGallery itemId db))))).
Proof.
  intros Hnd. split; [|split].
  - intros num now random req. unfold App.postGallery.
    destruct (Http.mediaFile req); [|assumption].
    destruct (Http.dateGroup req); [|assumption].
    match goal with
    | |- context [Sqlite.insert db ?r] =>
        destruct (Sqlite.insert db r) eqn:E
    end; [|assumption].
    simpl. apply (@insert_unique _ _ _ Hnd E).
  - intros itemId. unfold App.putFavorite.
    destruct (Sqlite.get db itemId); [|assumption].
    simpl. rewrite updateFavorite_ids. assumption.
  - intros itemId. unfold App.deleteGallery.
    destruct (Sqlite.get db itemId); [|assumption].
    pose proof (@delete_unique db itemId Hnd) as Hdel.
    destruct (Sqlite.delete db itemId) as [db' changes].
    destruct (changes =? 0)%nat; assumption.
Qed.

(** ** Seeding *)

(** C1, as the code has it. After [initializeDatabase()] on an empty table,
    the listing ([SELECT *] and the map to API items) holds exactly 16
    records, the length of [initialMockGalleryItems]; one of them has id
    [img-001], type [image] and categories library, nature, landscape. *)
Theorem seed_list_all :
  exists db items,
    Db.initializeDatabase [] = Some db
    /\ App.processedItems (Sqlite.all db) = Some items
    /\ length items = 16%nat
    /\ exists item,
        In item items
        /\ Item.id item = js "img-001"
        /\ Item.type item = js "image"
        /\ Item.categories item
           = JSON.JArr [ JSON.JStr (js "library"); JSON.JStr (js "nature");
                         JSON.JStr (js "landscape") ].
Proof.
  eexists. eexists.
  split; [vm_compute; reflexivity|].
  split; [vm_compute; reflexivity|].
  split; [reflexivity|].
  eexists. split; [left; reflexivity|].
  repeat split.
Qed.

(** C1 as stated fails: the listing after seeding never has 17 records. *)
Lemma seed_list_all_not_17 :
  ~ (exists db items,
        Db.initializeDatabase [] = Some db
        /\ App.processedItems (Sqlite.all db) = Some items
        /\ length items = 17%nat).
Proof.
  intros (db & items & Hinit & Hlist & Hlen).
  vm_compute in Hinit. inversion Hinit; subst db; clear Hinit.
  vm_compute in Hlist. inversion Hlist; subst items; clear Hlist.
  discriminate Hlen.
Qed.

(** C8. On a table that already has rows [initializeDatabase()] seeds
    nothing; run twice from the empty table, the second run leaves the
    table of the first as it is, so the count stays the same. *)
Theorem initialize_idempotent (db : Sqlite.table) (Hrows : db <> []) :
  Db.initializeDatabase db = Some db
  /\ exists seeded,
      Db.initializeDatabase [] = Some seeded
      /\ Db.initializeDatabase seeded = Some seeded
      /\ Sqlite.count seeded = Z.of_nat (length Db.initialMockGalleryItems).
Proof.
  assert (Hne : forall d : Sqlite.table, d <> [] -> Db.initializeDatabase d = Some d).
  { intros d Hd. unfold Db.initializeDatabase, Db.isTableEmpty, Sqlite.count.
    destruct d as [|r d]; [contradiction|].
    replace (Z.of_nat (length (r :: d)) =? 0)%Z with false; [reflexivity|].
    symmetry. apply Z.eqb_neq. simpl length. lia. }
  split; [apply Hne; assumption|].
  destruct (Db.initializeDatabase []) as [seeded|] eqn:E;
    [|vm_compute in E; discriminate].
  exists seeded. split; [reflexivity|].
  assert (Hcount : Sqlite.count seeded
                   = Z.of_nat (length Db.initialMockGalleryItems)).
  { vm_compute in E. inversion E; subst seeded. reflexivity. }
  split; [|exact Hcount].
  apply Hne. intros ->. vm_compute in Hcount. discriminate.
Qed.

Lemma initialize_idempotent_witness :
  [Db.seedRow (Db.img "img-900" "/source/x.jpg" "x" [] 0 "May 1, 2025")] <> []
  /\ Db.initializeDatabase
       [Db.seedRow (Db.img "img-900" "/source/x.jpg" "x" [] 0 "May 1, 2025")]
     = Some [Db.seedRow (Db.img "img-900" "/source/x.jpg" "x" [] 0 "May 1, 2025")].
Proof.
  split; [discriminate|].
  apply (initialize_idempotent
           (db := [Db.seedRow
                     (Db.img "img-900" "/source/x.jpg" "x" [] 0 "May 1, 2025")])).
  discriminate.
Defined.

(** ** Favorites *)

Lemma Boolean_newFavoriteStatus (v : Z) :
  App.Boolean (App.newFavoriteStatus v) = negb (App.Boolean v).
Proof.
  unfold App.Boolean, App.newFavoriteStatus.
  destruct (Z.eqb_spec v 0); reflexivity.
Qed.

(** C5. For an id that [db.get] finds, the favorite handler answers 200 with
    the inverted flag and stores it on that record, leaving every other
    record alone; applied once more to the same id it gives the first flag
    back (false, true, false).  For an id that is not in the table it
    answers 404 and the table is unchanged. *)
Theorem favorite_toggles (itemId : jsstring) (db : Sqlite.table) :
  (forall item,
      Sqlite.get db itemId = Some item ->
      exists db' item',
        App.putFavorite itemId db
        = (favoriteUpdated itemId (negb (App.Boolean (Row.isFavorite item))), db')
        /\ Sqlite.get db' itemId = Some item'
        /\ App.Boolean (Row.isFavorite item')
           = negb (App.Boolean (Row.isFavorite item))
        /\ (forall other, other <> itemId ->
                          Sqlite.get db' other = Sqlite.get db other)
        /\ exists db'' item'',
            App.putFavorite itemId db'
            = (favoriteUpdated itemId (App.Boolean (Row.isFavorite item)), db'')
            /\ Sqlite.get db'' itemId = Some item''
            /\ App.Boolean (Row.isFavorite item'')
               = App.Boolean (Row.isFavorite item))
  /\ (Sqlite.get db itemId = None ->
      App.putFavorite itemId db = (Http.Error 404 "Item not found", db)).
Proof.
  split.
  - intros item Hget.
    set (v := App.newFavoriteStatus (Row.isFavorite item)).
    exists (Sqlite.updateFavorite db v itemId), (Row.withFavorite item v).
    assert (Hget' : Sqlite.get (Sqlite.updateFavorite db v itemId) itemId
                    = Some (Row.withFavorite item v))
      by (apply get_updateFavorite_same; assumption).
    split; [|split; [|split; [|split]]].
    + unfold App.putFavorite. rewrite Hget. fold v.
      unfold favoriteUpdated, v. rewrite Boolean_newFavoriteStatus. reflexivity.
    + exact Hget'.
    + apply Boolean_newFavoriteStatus.
    + intros other Hne. apply get_updateFavorite_other; assumption.
    + set (db' := Sqlite.updateFavorite db v itemId) in *.
      set (w := App.newFavoriteStatus v).
      exists (Sqlite.updateFavorite db' w itemId),
        (Row.withFavorite (Row.withFavorite item v) w).
      split; [|split].
      * unfold App.putFavorite. rewrite Hget'.
        change (Row.isFavorite (Row.withFavorite item v)) with v. fold w.
        unfold favoriteUpdated, w, v.
        rewrite !Boolean_newFavoriteStatus, negb_involutive. reflexivity.
      * apply get_updateFavorite_same; assumption.
      * change (App.Boolean w = App.Boolean (Row.isFavorite item)).
        unfold w, v.
        rewrite !Boolean_newFavoriteStatus, negb_involutive. reflexivity.
  - intros Hnone. unfold App.putFavorite. rewrite Hnone. reflexivity.
Qed.

Lemma favorite_toggles_witness :
  Sqlite.get [sampleRow "a" 0; sampleRow "b" 1] (js "a") = Some (sampleRow "a" 0)
  /\ Sqlite.get [sampleRow "a" 0; sampleRow "b" 1] (js "c") = None
  /\ (exists db' item',
         App.putFavorite (js "a") [sampleRow "a" 0; sampleRow "b" 1]
         = (favoriteUpdated (js "a") true, db')
         /\ Sqlite.get db' (js "a") = Some item'
         /\ App.Boolean (Row.isFavorite item') = true)
  /\ App.putFavorite (js "c") [sampleRow "a" 0; sampleRow "b" 1]
     = (Http.Error 404 "Item not found", [sampleRow "a" 0; sampleRow "b" 1]).
Proof.
  split; [reflexivity|]. split; [reflexivity|]. split.
  - destruct (proj1 (favorite_toggles (js "a")
                       [sampleRow "a" 0; sampleRow "b" 1])
                (sampleRow "a" 0) eq_refl)
      as (db' & item' & H1 & H2 & H3 & _).
    exists db', item'. repeat split; assumption.
  - apply (proj2 (favorite_toggles (js "c") [sampleRow "a" 0; sampleRow "b" 1])).
    reflexivity.
Defined.

(** C10. Whatever integer the record holds, the favorite handler writes 1
    if it is 0 and 0 otherwise: afterwards every record with that id holds
    0 or 1. *)
Theorem favorite_writes_0_or_1 (itemId : jsstring) (db : Sqlite.table)
    (item : Row.t) (Hget : Sqlite.get db itemId = Some item) :
  let written := if (Row.isFavorite item =? 0)%Z then 1%Z else 0%Z in
  let db' := snd (App.putFavorite itemId db) in
  Sqlite.get db' itemId = Some (Row.withFavorite item written)
  /\ (forall r, In r db' -> Row.id r = itemId -> Row.isFavorite r = written)
  /\ (written = 0%Z \/ written = 1%Z).
Proof.
  intros written db'. unfold db', App.putFavorite. rewrite Hget.
  change (App.newFavoriteStatus (Row.isFavorite item)) with written.
  cbn [snd]. split; [|split].
  - apply get_updateFavorite_same; assumption.
  - apply updateFavorite_rows.
  - unfold written. destruct (Row.isFavorite item =? 0)%Z; auto.
Qed.

Lemma favorite_writes_0_or_1_witness :
  Sqlite.get [sampleRow "a" 7] (js "a") = Some (sampleRow "a" 7)
  /\ Sqlite.get (snd (App.putFavorite (js "a") [sampleRow "a" 7])) (js "a")
     = Some (sampleRow "a" 0).
Proof.
  split; [reflexivity|].
  apply (favorite_writes_0_or_1 (js "a") [sampleRow "a" 7] (item := sampleRow "a" 7)).
  reflexivity.
Defined.

(** ** Deleting *)

(** C9. With ids unique (the primary key), deleting an id that [db.get]
    finds answers 200 with that id and takes exactly that record out; the
    lookup of the id then finds nothing and a second delete answers 404
    "Item not found" and changes nothing.  Deleting an id that is not in the
    table answers 404 and changes nothing. *)
Theorem delete_then_not_found (itemId : jsstring) (db : Sqlite.table) :
  (forall item,
      NoDup (map Row.id db) ->
      Sqlite.get db itemId = Some item ->
      exists db' unlinked,
        App.deleteGallery itemId db = (itemDeleted itemId, db', unlinked)
        /\ (exists before after,
               db = before ++ item :: after /\ db' = before ++ after)
        /\ Sqlite.get db' itemId = None
        /\ (forall other, other <> itemId ->
                          Sqlite.get db' other = Sqlite.get db other)
        /\ App.deleteGallery itemId db'
           = (Http.Error 404 "Item not found", db', None))
  /\ (Sqlite.get db itemId = None ->
      App.deleteGallery itemId db = (Http.Error 404 "Item not found", db, None)).
Proof.
  assert (Habsent : forall d, Sqlite.get d itemId = None ->
            App.deleteGallery itemId d
            = (Http.Error 404 "Item not found", d, None)).
  { intros d Hnone. unfold App.deleteGallery. rewrite Hnone. reflexivity. }
  split; [|apply Habsent].
  intros item Hkey Hget.
  pose proof (delete_changes db itemId Hget) as Hchg.
  pose proof (get_delete_same db itemId) as Hgone.
  pose proof (delete_exactly db itemId Hkey Hget) as Hexact.
  pose proof (fun other => @get_delete_other db itemId other) as Hother.
  unfold App.deleteGallery. rewrite Hget.
  destruct (Sqlite.delete db itemId) as [db' changes] eqn:Hdel.
  cbn [fst snd] in *. rewrite Hchg.
  eexists. eexists. split; [reflexivity|].
  split; [exact Hexact|]. split; [exact Hgone|]. split; [exact Hother|].
  apply Habsent. exact Hgone.
Qed.

Lemma delete_then_not_found_witness :
  NoDup (map Row.id [sampleRow "a" 0; sampleRow "b" 1])
  /\ Sqlite.get [sampleRow "a" 0; sampleRow "b" 1] (js "b")
     = Some (sampleRow "b" 1)
  /\ Sqlite.get [sampleRow "a" 0; sampleRow "b" 1] (js "c") = None
  /\ (exists db' unlinked,
         App.deleteGallery (js "b") [sampleRow "a" 0; sampleRow "b" 1]
         = (itemDeleted (js "b"), db', unlinked)
         /\ Sqlite.get db' (js "b") = None)
  /\ App.deleteGallery (js "c") [sampleRow "a" 0; sampleRow "b" 1]
     = (Http.Error 404 "Item not found",
        [sampleRow "a" 0; sampleRow "b" 1], None).
Proof.
  assert (Hkey : NoDup (map Row.id [sampleRow "a" 0; sampleRow "b" 1])).
  { repeat constructor; simpl; intuition discriminate. }
  split; [exact Hkey|]. split; [reflexivity|]. split; [reflexivity|]. split.
  - destruct (proj1 (delete_then_not_found (js "b")
                       [sampleRow "a" 0; sampleRow "b" 1])
                (sampleRow "b" 1) Hkey eq_refl)
      as (db' & unlinked & H1 & _ & H3 & _).
    exists db', unlinked. split; assumption.
  - apply (proj2 (delete_then_not_found (js "c")
                    [sampleRow "a" 0; sampleRow "b" 1])).
    reflexivity.
Defined.

(** ** Uploading *)

Lemma parsedCategories_spec (field : option jsstring) :
  App.parsedCategories field
  = match JSON.parse (fieldText field) with
    | Some v => v
    | None => JSON.JArr []
    end.
Proof.
  destruct field as [[|c text]|]; reflexivity.
Qed.

(** C6. Without a file the upload handler answers 400 and the table is
    what it was. *)
Theorem upload_without_file (num : jsstring -> jsstring) (now : N)
    (random : jsstring) (req : Http.upload) (db : Sqlite.table)
    (Hfile : Http.mediaFile req = None) :
  App.postGallery num now random req db
  = (Http.Error 400 "No file uploaded.", db).
Proof. unfold App.postGallery. rewrite Hfile. reflexivity. Qed.

Lemma upload_without_file_witness :
  App.postGallery (fun lexeme => lexeme) 1746057600000 (js "k3j9x2a")
    {| Http.mediaFile := None; Http.alt := Some (js "a cat");
       Http.categories := Some (js "[]");
       Http.dateGroup := Some (js "May 1, 2025") |}
    [sampleRow "a" 0]
  = (Http.Error 400 "No file uploaded.", [sampleRow "a" 0]).
Proof. apply upload_without_file. reflexivity. Defined.

(** C7. An upload that is answered 201 had a file, and its record, in the
    answer and in the row appended to the table, has type [image] if the
    MIME type starts with [image/] and [video] if not, no poster, the
    favorite flag off, the [alt] field or, when that is absent, the original
    file name, and as categories what [JSON.parse] makes of the field, or the
    empty array when it throws. *)
Theorem upload_record (num : jsstring -> jsstring) (now : N)
    (random : jsstring) (req : Http.upload) (db db' : Sqlite.table)
    (item : Item.t)
    (Hcreated : App.postGallery num now random req db
                = (Http.Json 201 item, db')) :
  exists file row,
    Http.mediaFile req = Some file
    /\ Item.type item
       = (if JSString.startsWith (Http.mimetype file) (js "image/")
          then js "image" else js "video")
    /\ Item.poster item = None
    /\ Item.isFavorite item = false
    /\ Item.alt item
       = Some (JSString.orElse (Http.alt req) (Http.originalname file))
    /\ (Http.alt req = None -> Item.alt item = Some (Http.originalname file))
    /\ Item.categories item
       = match JSON.parse (fieldText (Http.categories req)) with
         | Some v => v
         | None => JSON.JArr []
         end
    /\ db' = db ++ [row]
    /\ Row.id row = Item.id item
    /\ Row.type row = Item.type item
    /\ Row.poster row = None
    /\ Row.isFavorite row = 0%Z
    /\ Row.alt row = Item.alt item
    /\ Row.categories row = Some (JSON.stringify num (Item.categories item)).
Proof.
  unfold App.postGallery in Hcreated.
  destruct (Http.mediaFile req) as [file|]; [|discriminate].
  destruct (Http.dateGroup req) as [dateGroup|]; [|discriminate].
  match type of Hcreated with
  | context [Sqlite.insert db ?r] => set (row := r) in *
  end.
  unfold Sqlite.insert in Hcreated.
  destruct (existsb (Sqlite.hasId (Row.id row)) db); [discriminate|].
  inversion Hcreated; subst item db'; clear Hcreated.
  exists file, row. cbn [Item.type Item.poster Item.isFavorite Item.alt
                          Item.categories Item.id].
  rewrite <- parsedCategories_spec.
  repeat split.
  intros Halt. rewrite Halt. reflexivity.
Qed.

Lemma upload_record_witness :
  exists db',
    App.postGallery (fun lexeme => lexeme) 1746057600123 (js "k3j9x2a")
      sampleUpload [sampleRow "a" 0]
    = (Http.Json 201 sampleCreated, db')
    /\ exists row, db' = [sampleRow "a" 0] ++ [row]
                   /\ Row.categories row = Some (js "[]").
Proof.
  eexists. split; [vm_compute; reflexivity|].
  destruct (upload_record (fun lexeme => lexeme) 1746057600123 (js "k3j9x2a")
              sampleUpload [sampleRow "a" 0] (item := sampleCreated) eq_refl)
    as (file & row & _ & _ & _ & _ & _ & _ & _ & Hdb & _ & _ & _ & _ & _ & Hcat).
  exists row. split; [exact Hdb | exact Hcat].
Defined.

(** ** Objects as maps *)

Section ObjectFacts.
Variable A : Type.
Variable h : jsstring -> A.

Let entry (k : jsstring) : jsstring * A := (k, h k).

Lemma getOwn_entries (keys : list jsstring) (k : jsstring) :
  JSObject.getOwn (map entry keys) k
  = if existsb (JSString.eqb k) keys then Some (h k) else None.
Proof.
  induction keys as [|a keys IH]; simpl; [reflexivity|].
  rewrite (eqb_sym k a). destruct (JSString.eqb a k) eqn:E; simpl.
  - apply eqb_eq in E. subst a. reflexivity.
  - exact IH.
Qed.

Lemma set_new (keys : list jsstring) (k : jsstring) (v : A) :
  existsb (JSString.eqb k) keys = false ->
  JSObject.set (map entry keys) k v = map entry keys ++ [(k, v)].
Proof.
  induction keys as [|a keys IH]; simpl; [reflexivity|].
  rewrite (eqb_sym k a). destruct (JSString.eqb a k); simpl; [discriminate|].
  intros H. rewrite IH by assumption. reflexivity.
Qed.

Lemma set_last (o : JSObject.t A) (k : jsstring) (v w : A) :
  JSObject.getOwn o k = None ->
  JSObject.set (o ++ [(k, v)]) k w = o ++ [(k, w)].
Proof.
  induction o as [|[a x] o IH]; simpl.
  - rewrite eqb_refl. reflexivity.
  - destruct (JSString.eqb a k); [discriminate|].
    intros H. rewrite IH by assumption. reflexivity.
Qed.

Lemma getOwn_last (o : JSObject.t A) (k : jsstring) (v : A) :
  JSObject.getOwn o k = None ->
  JSObject.getOwn (o ++ [(k, v)]) k = Some v.
Proof.
  induction o as [|[a x] o IH]; simpl.
  - rewrite eqb_refl. reflexivity.
  - destruct (JSString.eqb a k); [discriminate|]. exact IH.
Qed.

Lemma set_present (keys : list jsstring) (k : jsstring) (v : A) :
  NoDup keys -> In k keys ->
  JSObject.set (map entry keys) k v
  = map (fun k' => (k', if JSString.eqb k' k then v else h k')) keys.
Proof.
  induction keys as [|a keys IH]; simpl; [contradiction|].
  intros Hnd Hin. inversion Hnd as [|? ? Hnotin Hnd']; subst.
  destruct (JSString.eqb a k) eqn:E.
  - apply eqb_eq in E. subst a. f_equal.
    apply map_ext_in. intros k' Hk'. unfold entry.
    replace (JSString.eqb k' k) with false; [reflexivity|].
    symmetry. apply eqb_neq. intros ->. contradiction.
  - f_equal. apply IH; [assumption|].
    destruct Hin as [->|Hin]; [|assumption].
    rewrite eqb_refl in E. discriminate.
Qed.
End ObjectFacts.

(** The enumeration order depends on the keys alone. *)
Section PropertyOrder.
Variables A B : Type.
Variable f : jsstring -> A -> B.

Let onValue (p : jsstring * A) : jsstring * B := (fst p, f (fst p) (snd p)).

Lemma insertIndex_map (p : jsstring * A) (l : JSObject.t A) :
  JSObject.insertIndex (onValue p) (map onValue l)
  = map onValue (JSObject.insertIndex p l).
Proof.
  induction l as [|q l IH]; simpl; [reflexivity|].
  destruct (JSString.digitsValue (fst p) <=? JSString.digitsValue (fst q))%N;
    simpl; [reflexivity|]. rewrite IH. reflexivity.
Qed.

Lemma filter_onValue (test : jsstring -> bool) (o : JSObject.t A) :
  filter (fun p => test (fst p)) (map onValue o)
  = map onValue (filter (fun p => test (fst p)) o).
Proof.
  induction o as [|q o IH]; simpl; [reflexivity|].
  destruct (test (fst q)); simpl; rewrite IH; reflexivity.
Qed.

Lemma ownProperties_map (o : JSObject.t A) :
  JSObject.ownProperties (map onValue o)
  = map onValue (JSObject.ownProperties o).
Proof.
  unfold JSObject.ownProperties.
  rewrite (filter_onValue (@JSObject.isArrayIndex)).
  rewrite (filter_onValue (fun k => negb (JSObject.isArrayIndex k))).
  rewrite map_app. f_equal.
  induction (filter (fun p => JSObject.isArrayIndex (fst p)) o)
    as [|q l IH]; simpl; [reflexivity|].
  rewrite IH. apply insertIndex_map.
Qed.
End PropertyOrder.

Lemma insertIndex_perm (A : Type) (p : jsstring * A) (l : JSObject.t A) :
  Permutation (JSObject.insertIndex p l) (p :: l).
Proof.
  induction l as [|q l IH]; simpl; [reflexivity|].
  destruct (JSString.digitsValue (fst p) <=? JSString.digitsValue (fst q))%N;
    [reflexivity|].
  rewrite IH. apply perm_swap.
Qed.

Lemma filter_split_perm (A : Type) (test : A -> bool) (l : list A) :
  Permutation (filter test l ++ filter (fun x => negb (test x)) l) l.
Proof.
  induction l as [|x l IH]; simpl; [reflexivity|].
  destruct (test x); simpl.
  - constructor. exact IH.
  - rewrite <- Permutation_middle. constructor. exact IH.
Qed.

Lemma ownProperties_perm (A : Type) (o : JSObject.t A) :
  Permutation (JSObject.ownProperties o) o.
Proof.
  unfold JSObject.ownProperties.
  rewrite <- (filter_split_perm (fun p => JSObject.isArrayIndex (fst p)) o) at 3.
  apply Permutation_app_tail.
  induction (filter (fun p => JSObject.isArrayIndex (fst p)) o)
    as [|q l IH]; simpl; [reflexivity|].
  rewrite insertIndex_perm. constructor. exact IH.
Qed.

(** ** Sorting *)

Section SortFacts.
Variable A : Type.
Variable comparefn : A -> A -> option Z.

Lemma insert_perm (x : A) (l : list A) :
  Permutation (JSArray.insert comparefn x l) (x :: l).
Proof.
  induction l as [|y l IH]; simpl; [reflexivity|].
  destruct (JSArray.sortCompare comparefn x y <=? 0)%Z; [reflexivity|].
  rewrite IH. apply perm_swap.
Qed.

Lemma sort_perm (l : list A) : Permutation (JSArray.sort comparefn l) l.
Proof.
  induction l as [|x l IH]; simpl; [reflexivity|].
  rewrite insert_perm. constructor. exact IH.
Qed.

(** When every comparison is 0 (or [NaN]) nothing moves. *)
Lemma sort_all_equal (l : list A) :
  (forall x y, In x l -> In y l -> JSArray.sortCompare comparefn x y = 0%Z) ->
  JSArray.sort comparefn l = l.
Proof.
  induction l as [|x l IH]; intros H; simpl; [reflexivity|].
  rewrite IH by (intros; apply H; right; assumption).
  destruct l as [|y l]; simpl; [reflexivity|].
  rewrite (H x y); [reflexivity | left; reflexivity | right; left; reflexivity].
Qed.

(** When the comparison is the difference of a key, the result is in
    descending key order. *)
Variable key : A -> Z.

Let descending := descendingBy key.

Lemma insert_descending (x : A) (l : list A) :
  (forall y, In y l -> JSArray.sortCompare comparefn x y = (key y - key x)%Z) ->
  StronglySorted descending l ->
  StronglySorted descending (JSArray.insert comparefn x l).
Proof.
  intros Hcmp Hsorted.
  induction Hsorted as [|y l Hl IH Hy]; simpl.
  - constructor; constructor.
  - rewrite (Hcmp y) by (left; reflexivity).
    destruct (Z.leb_spec (key y - key x) 0).
    + constructor; [constructor; assumption|].
      constructor; [unfold descending, descendingBy; lia|].
      eapply Forall_impl; [|exact Hy].
      unfold descending, descendingBy. intros; lia.
    + constructor.
      * apply IH. intros; apply Hcmp; right; assumption.
      * apply (Permutation_Forall (Permutation_sym (insert_perm x l))).
        constructor; [unfold descending, descendingBy; lia | assumption].
Qed.

Lemma sort_descending (l : list A) :
  (forall x y, In x l -> In y l ->
               JSArray.sortCompare comparefn x y = (key y - key x)%Z) ->
  StronglySorted descending (JSArray.sort comparefn l).
Proof.
  induction l as [|x l IH]; intros H; simpl; [constructor|].
  apply insert_descending.
  - intros y Hy. apply H; [left; reflexivity|].
    right. apply (Permutation_in _ (sort_perm l)). assumption.
  - apply IH. intros; apply H; right; assumption.
Qed.
End SortFacts.

(** ** Grouping *)

Lemma existsb_eqb_In (k : jsstring) (l : list jsstring) :
  existsb (JSString.eqb k) l = true <-> In k l.
Proof.
  rewrite existsb_exists. split.
  - intros (x & Hin & E). apply eqb_eq in E. subst. assumption.
  - intros Hin. exists k. split; [assumption | apply eqb_refl].
Qed.

Lemma existsb_eqb_not_In (k : jsstring) (l : list jsstring) :
  existsb (JSString.eqb k) l = false <-> ~ In k l.
Proof.
  rewrite <- existsb_eqb_In. destruct (existsb (JSString.eqb k) l);
    split; congruence.
Qed.

Lemma distinct_snoc (l : list jsstring) (k : jsstring) :
  Grouping.distinct (l ++ [k]) = Grouping.addLabel (Grouping.distinct l) k.
Proof. unfold Grouping.distinct. rewrite fold_left_app. reflexivity. Qed.

Lemma addLabels_In (l acc : list jsstring) (k : jsstring) :
  In k (fold_left Grouping.addLabel l acc) <-> In k acc \/ In k l.
Proof.
  revert acc. induction l as [|a l IH]; intros acc; simpl; [tauto|].
  rewrite IH. unfold Grouping.addLabel.
  destruct (existsb (JSString.eqb a) acc) eqn:E.
  - apply existsb_eqb_In in E. split; [tauto|].
    intros [H|[H|H]]; subst; auto.
  - rewrite in_app_iff. simpl. tauto.
Qed.

Lemma addLabels_NoDup (l acc : list jsstring) :
  NoDup acc -> NoDup (fold_left Grouping.addLabel l acc).
Proof.
  revert acc. induction l as [|a l IH]; intros acc Hnd; simpl; [assumption|].
  apply IH. unfold Grouping.addLabel.
  destruct (existsb (JSString.eqb a) acc) eqn:E; [assumption|].
  apply existsb_eqb_not_In in E.
  apply NoDup_app; [assumption | repeat constructor; simpl; tauto |].
  intros x Hx [->|[]]. contradiction.
Qed.

Lemma distinct_In (l : list jsstring) (k : jsstring) :
  In k (Grouping.distinct l) <-> In k l.
Proof. unfold Grouping.distinct. rewrite addLabels_In. simpl. tauto. Qed.

Lemma distinct_NoDup (l : list jsstring) : NoDup (Grouping.distinct l).
Proof. apply addLabels_NoDup. constructor. Qed.

Lemma propertyOrder_perm (ks : list jsstring) :
  Permutation (Grouping.propertyOrder ks) ks.
Proof.
  unfold Grouping.propertyOrder.
  rewrite ownProperties_perm, map_map. simpl. rewrite map_id. reflexivity.
Qed.

Lemma filter_labelled_snoc (items : list Item.t) (item : Item.t)
    (k : jsstring) :
  filter (Grouping.labelled k) (items ++ [item])
  = filter (Grouping.labelled k) items
    ++ (if JSString.eqb (Item.dateGroup item) k then [item] else []).
Proof. rewrite filter_app. reflexivity. Qed.

Lemma filter_labelled_none (items : list Item.t) (k : jsstring) :
  ~ In k (Grouping.labels items) -> filter (Grouping.labelled k) items = [].
Proof.
  induction items as [|i items IH]; simpl; [reflexivity|].
  intros Hnot. unfold Grouping.labelled at 1.
  replace (JSString.eqb (Item.dateGroup i) k) with false.
  - apply IH. tauto.
  - symmetry. apply eqb_neq. intros E. apply Hnot. left. exact E.
Qed.

(** One turn of the loop takes the object of the items seen so far to the
    object of the items with the new one. *)
Lemma groupItem_step (done : list Item.t) (item : Item.t) :
  JSObject.inherited (Item.dateGroup item) = false ->
  App.groupItem (Grouping.object done) item
  = Some (Grouping.object (done ++ [item])).
Proof.
  intros Hplain. unfold App.groupItem, App.read, Grouping.object.
  set (k := Item.dateGroup item) in *.
  set (ks := Grouping.distinct (Grouping.labels done)).
  assert (Hks : Grouping.distinct (Grouping.labels (done ++ [item]))
                = Grouping.addLabel ks k).
  { unfold Grouping.labels. rewrite map_app. apply distinct_snoc. }
  rewrite Hks. unfold Grouping.addLabel.
  rewrite (getOwn_entries (Grouping.groupOf done) ks k).
  destruct (existsb (JSString.eqb k) ks) eqn:E.
  - rewrite (getOwn_entries (Grouping.groupOf done) ks k), E.
    rewrite (set_present (Grouping.groupOf done));
      [|apply distinct_NoDup | apply existsb_eqb_In; exact E].
    f_equal. apply map_ext. intros k'. f_equal.
    unfold Grouping.groupOf, Group.push. cbn [Group.id Group.date Group.items].
    rewrite filter_labelled_snoc. fold k. rewrite (eqb_sym k k').
    destruct (JSString.eqb k' k) eqn:E'.
    + apply eqb_eq in E'. subst k'. reflexivity.
    + rewrite app_nil_r. reflexivity.
  - rewrite Hplain.
    assert (Hnone : JSObject.getOwn
                      (map (fun k0 => (k0, Grouping.groupOf done k0)) ks) k
                    = None).
    { rewrite (getOwn_entries (Grouping.groupOf done) ks k), E. reflexivity. }
    rewrite (@set_new _ (Grouping.groupOf done) ks k _ E).
    rewrite (@getOwn_last _ _ k _ Hnone).
    rewrite (@set_last _ _ k _ _ Hnone).
    rewrite map_app. f_equal. f_equal.
    + apply map_ext_in. intros k' Hk'. f_equal.
      unfold Grouping.groupOf. rewrite filter_labelled_snoc. fold k.
      replace (JSString.eqb k k') with false; [rewrite app_nil_r; reflexivity|].
      symmetry. apply eqb_neq. intros <-.
      apply existsb_eqb_not_In in E. contradiction.
    + simpl. f_equal. f_equal.
      unfold Grouping.groupOf, Group.push. cbn [Group.id Group.date Group.items].
      rewrite filter_labelled_snoc. fold k. rewrite eqb_refl.
      rewrite filter_labelled_none; [reflexivity|].
      apply existsb_eqb_not_In in E. intros Hin. apply E.
      apply distinct_In. exact Hin.
Qed.

Lemma groupedData_from (items done : list Item.t) :
  (forall i, In i items -> JSObject.inherited (Item.dateGroup i) = false) ->
  App.groupedData items (Grouping.object done)
  = Some (Grouping.object (done ++ items)).
Proof.
  revert done. induction items as [|item items IH]; intros done Hplain; simpl.
  - rewrite app_nil_r. reflexivity.
  - rewrite groupItem_step by (apply Hplain; left; reflexivity).
    rewrite IH by (intros; apply Hplain; right; assumption).
    rewrite <- app_assoc. reflexivity.
Qed.

Lemma values_object (items : list Item.t) :
  JSObject.values (Grouping.object items) = Grouping.expected items.
Proof.
  unfold JSObject.values, Grouping.object, Grouping.expected,
    Grouping.propertyOrder.
  set (ks := Grouping.distinct (Grouping.labels items)).
  replace (map (fun k => (k, Grouping.groupOf items k)) ks)
    with (map (fun p : jsstring * unit =>
                 (fst p, Grouping.groupOf items (fst p)))
              (map (fun k => (k, tt)) ks))
    by (rewrite map_map; reflexivity).
  rewrite (ownProperties_map (fun k (_ : unit) => Grouping.groupOf items k)).
  rewrite !map_map. reflexivity.
Qed.

(** The handler's grouping is the grouping said directly, then sorted,
    whenever no label is a name that plain objects inherit. *)
Lemma sortedGroupedData_expected (Date_parse : jsstring -> option Z)
    (items : list Item.t) :
  (forall i, In i items -> JSObject.inherited (Item.dateGroup i) = false) ->
  App.sortedGroupedData Date_parse items
  = Some (JSArray.sort (App.byDateDescending Date_parse)
            (Grouping.expected items)).
Proof.
  intros Hplain. unfold App.sortedGroupedData.
  change (@nil (jsstring * Group.t)) with (Grouping.object []).
  rewrite groupedData_from by assumption.
  rewrite values_object. reflexivity.
Qed.

Lemma expected_dates (items : list Item.t) :
  map Group.date (Grouping.expected items)
  = Grouping.propertyOrder (Grouping.distinct (Grouping.labels items)).
Proof.
  unfold Grouping.expected. rewrite map_map. simpl. apply map_id.
Qed.

Lemma expected_groups (items : list Item.t) (g : Group.t) :
  In g (Grouping.expected items) ->
  g = Grouping.groupOf items (Group.date g)
  /\ In (Group.date g) (Grouping.labels items).
Proof.
  unfold Grouping.expected. intros Hin.
  apply in_map_iff in Hin. destruct Hin as (k & <- & Hk). split; [reflexivity|].
  simpl. apply distinct_In.
  apply (Permutation_in _ (propertyOrder_perm _)). exact Hk.
Qed.

Lemma StronglySorted_in_impl (A : Type) (R R' : A -> A -> Prop) (l : list A) :
  (forall a b, In a l -> In b l -> R a b -> R' a b) ->
  StronglySorted R l -> StronglySorted R' l.
Proof.
  intros Himpl Hsorted. induction Hsorted as [|x l Hl IH Hx]; [constructor|].
  constructor.
  - apply IH. intros a b Ha Hb. apply Himpl; right; assumption.
  - rewrite Forall_forall in *. intros b Hb.
    apply Himpl; [left; reflexivity | right; assumption | apply Hx; assumption].
Qed.

Lemma StronglySorted_before (A : Type) (R : A -> A -> Prop)
    (l1 l2 : list A) (a b : A) :
  StronglySorted R (l1 ++ b :: l2) -> In a l1 -> R a b.
Proof.
  induction l1 as [|x l1 IH]; simpl; [contradiction|].
  intros Hsorted [->|Hin].
  - apply StronglySorted_inv in Hsorted. destruct Hsorted as [_ Hall].
    rewrite Forall_forall in Hall. apply Hall.
    apply in_or_app. right. left. reflexivity.
  - apply IH; [|assumption].
    apply StronglySorted_inv in Hsorted. tauto.
Qed.

Section GroupingFacts.
Variable Date_parse : jsstring -> option Z.

Let timeOf (g : Group.t) : Z :=
  match Date_parse (Group.date g) with
  | Some t => t
  | None => 0%Z
  end.

Lemma sortCompare_dated (a b : Group.t) :
  Date_parse (Group.date a) <> None ->
  Date_parse (Group.date b) <> None ->
  JSArray.sortCompare (App.byDateDescending Date_parse) a b
  = (timeOf b - timeOf a)%Z.
Proof.
  unfold JSArray.sortCompare, App.byDateDescending, timeOf.
  destruct (Date_parse (Group.date a)), (Date_parse (Group.date b));
    intros; congruence.
Qed.

(** A label that is no date makes the comparison [NaN], taken as 0. *)
Lemma sortCompare_undated (a b : Group.t) :
  Date_parse (Group.date a) = None \/ Date_parse (Group.date b) = None ->
  JSArray.sortCompare (App.byDateDescending Date_parse) a b = 0%Z.
Proof.
  unfold JSArray.sortCompare, App.byDateDescending.
  destruct (Date_parse (Group.date a)), (Date_parse (Group.date b));
    intros [H|H]; congruence.
Qed.

Lemma sortCompare_same_label (a b : Group.t) :
  Group.date a = Group.date b ->
  JSArray.sortCompare (App.byDateDescending Date_parse) a b = 0%Z.
Proof.
  unfold JSArray.sortCompare, App.byDateDescending. intros ->.
  destruct (Date_parse (Group.date b)); [f_equal; lia | reflexivity].
Qed.

Lemma sorted_dated (groups : list Group.t) :
  (forall g, In g groups -> Date_parse (Group.date g) <> None) ->
  StronglySorted (Grouping.notOlder Date_parse)
    (JSArray.sort (App.byDateDescending Date_parse) groups).
Proof.
  intros Hdated.
  pose proof (sort_perm (App.byDateDescending Date_parse) groups) as Hperm.
  apply (StronglySorted_in_impl (R := descendingBy timeOf)).
  - intros a b Ha Hb Hab.
    apply (Permutation_in _ Hperm) in Ha, Hb.
    apply Hdated in Ha, Hb. unfold descendingBy, timeOf in Hab.
    unfold Grouping.notOlder.
    destruct (Date_parse (Group.date a)) as [ta|]; [|congruence].
    destruct (Date_parse (Group.date b)) as [tb|]; [|congruence].
    exists ta, tb. auto.
  - apply sort_descending. intros x y Hx Hy.
    apply sortCompare_dated; apply Hdated; assumption.
Qed.

(** A label that plain objects inherit makes the grouping throw: the
    handler answers 500 as long as such a record is in the table. *)
Lemma inherited_label_throws_from (items done : list Item.t) :
  (forall i, In i done -> JSObject.inherited (Item.dateGroup i) = false) ->
  (exists i, In i items /\ JSObject.inherited (Item.dateGroup i) = true) ->
  App.groupedData items (Grouping.object done) = None.
Proof.
  revert done. induction items as [|item items IH]; intros done Hdone Hex.
  - destruct Hex as (i & [] & _).
  - simpl. destruct (JSObject.inherited (Item.dateGroup item)) eqn:E.
    + assert (Hnone : JSObject.getOwn (Grouping.object done)
                        (Item.dateGroup item) = None).
      { unfold Grouping.object.
        rewrite (getOwn_entries (Grouping.groupOf done)).
        replace (existsb (JSString.eqb (Item.dateGroup item))
                   (Grouping.distinct (Grouping.labels done))) with false;
          [reflexivity|].
        symmetry. apply existsb_eqb_not_In. rewrite distinct_In.
        unfold Grouping.labels. rewrite in_map_iff.
        intros (i & Hi & Hin). apply Hdone in Hin. congruence. }
      unfold App.groupItem, App.read. cbv zeta.
      rewrite Hnone, E. cbv iota. rewrite Hnone. reflexivity.
    + rewrite groupItem_step by assumption. apply IH.
      * intros i Hi. apply in_app_or in Hi.
        destruct Hi as [Hi|[<-|[]]]; [apply Hdone|]; assumption.
      * destruct Hex as (i & [<-|Hi] & Hinh); [congruence|eauto].
Qed.

Lemma inherited_label_throws (items : list Item.t) :
  (exists i, In i items /\ JSObject.inherited (Item.dateGroup i) = true) ->
  App.sortedGroupedData Date_parse items = None.
Proof.
  intros Hex. unfold App.sortedGroupedData.
  change (@nil (jsstring * Group.t)) with (Grouping.object []).
  rewrite inherited_label_throws_from; [reflexivity | | assumption].
  intros i [].
Qed.

End GroupingFacts.

(** C3, as the code has it. When no label is a property name that plain
    objects inherit, the grouping gives one group for each distinct
    [dateGroup], holding the items of that label in their input order; when
    moreover every label is read as a date, the groups are in descending date
    order, so that the group of May 1, 2025 is before the group of
    April 15, 2025. *)
Theorem grouping_by_date (Date_parse : jsstring -> option Z)
    (items : list Item.t)
    (Hplain : forall i, In i items ->
                        JSObject.inherited (Item.dateGroup i) = false) :
  exists groups,
    App.sortedGroupedData Date_parse items = Some groups
    /\ NoDup (map Group.date groups)
    /\ (forall label,
           In label (map Group.date groups) <-> In label (Grouping.labels items))
    /\ (forall g, In g groups -> g = Grouping.groupOf items (Group.date g))
    /\ ((forall i, In i items -> Date_parse (Item.dateGroup i) <> None) ->
        StronglySorted (Grouping.notOlder Date_parse) groups
        /\ forall tMay tApril,
            Date_parse (js "May 1, 2025") = Some tMay ->
            Date_parse (js "April 15, 2025") = Some tApril ->
            (tApril < tMay)%Z ->
            In (js "May 1, 2025") (Grouping.labels items) ->
            In (js "April 15, 2025") (Grouping.labels items) ->
            exists l1 l2 l3,
              groups = l1 ++ Grouping.groupOf items (js "May 1, 2025")
                          :: l2 ++ Grouping.groupOf items (js "April 15, 2025")
                          :: l3).
Proof.
  set (groups := JSArray.sort (App.byDateDescending Date_parse)
                   (Grouping.expected items)).
  exists groups.
  assert (Hperm : Permutation groups (Grouping.expected items))
    by apply sort_perm.
  assert (Hdates : Permutation (map Group.date groups)
                     (Grouping.distinct (Grouping.labels items))).
  { rewrite (Permutation_map Group.date Hperm), expected_dates.
    apply propertyOrder_perm. }
  assert (Hlabels : forall label,
             In label (map Group.date groups)
             <-> In label (Grouping.labels items)).
  { intros label. split; intros H.
    - apply distinct_In. exact (Permutation_in _ Hdates H).
    - apply (Permutation_in _ (Permutation_sym Hdates)).
      apply distinct_In. exact H. }
  assert (Hgroup : forall g, In g groups ->
                             g = Grouping.groupOf items (Group.date g)).
  { intros g Hg. apply (Permutation_in _ Hperm) in Hg.
    apply expected_groups in Hg. tauto. }
  split; [apply sortedGroupedData_expected; assumption|].
  split.
  { apply (Permutation_NoDup (Permutation_sym Hdates)), distinct_NoDup. }
  split; [exact Hlabels|]. split; [exact Hgroup|].
  intros Hdated.
  assert (Hsorted : StronglySorted (Grouping.notOlder Date_parse) groups).
  { apply sorted_dated. intros g Hg. apply expected_groups in Hg.
    destruct Hg as [_ Hin]. unfold Grouping.labels in Hin.
    apply in_map_iff in Hin. destruct Hin as (i & <- & Hi).
    apply Hdated. assumption. }
  split; [exact Hsorted|].
  intros tMay tApril HMay HApril Hlt HinMay HinApril.
  set (gMay := Grouping.groupOf items (js "May 1, 2025")).
  set (gApril := Grouping.groupOf items (js "April 15, 2025")).
  assert (Hfind : forall label, In label (Grouping.labels items) ->
                                In (Grouping.groupOf items label) groups).
  { intros label Hin. apply Hlabels, in_map_iff in Hin.
    destruct Hin as (g & <- & Hg). rewrite <- (Hgroup g Hg). exact Hg. }
  pose proof (Hfind _ HinMay) as HgMay. fold gMay in HgMay.
  pose proof (Hfind _ HinApril) as HgApril. fold gApril in HgApril.
  apply in_split in HgMay. destruct HgMay as (l1 & r & Hsplit).
  rewrite Hsplit in HgApril. apply in_app_or in HgApril.
  destruct HgApril as [Hl1|[Heq|Hr]].
  - exfalso. rewrite Hsplit in Hsorted.
    pose proof (@StronglySorted_before _ _ _ _ _ _ Hsorted Hl1) as Hnot.
    destruct Hnot as (ta & tb & Ha & Hb & Hle).
    unfold gApril, gMay, Grouping.groupOf in Ha, Hb. simpl in Ha, Hb.
    rewrite HApril in Ha. rewrite HMay in Hb.
    inversion Ha; inversion Hb; subst. lia.
  - exfalso. apply (f_equal Group.date) in Heq.
    unfold gApril, gMay, Grouping.groupOf in Heq. simpl in Heq.
    rewrite Heq in HMay. rewrite HMay in HApril. inversion HApril. lia.
  - apply in_split in Hr. destruct Hr as (l2 & l3 & Hr).
    exists l1, l2, l3. rewrite Hsplit, Hr. reflexivity.
Qed.

Lemma grouping_by_date_witness :
  (forall i,
      In i [ sampleItem "a" "April 15, 2025"; sampleItem "b" "May 1, 2025";
             sampleItem "c" "April 15, 2025" ] ->
      JSObject.inherited (Item.dateGroup i) = false)
  /\ exists groups l1 l2 l3,
      App.sortedGroupedData MonthDayYear.parse
        [ sampleItem "a" "April 15, 2025"; sampleItem "b" "May 1, 2025";
          sampleItem "c" "April 15, 2025" ]
      = Some groups
      /\ groups
         = l1 ++ Grouping.groupOf
                   [ sampleItem "a" "April 15, 2025";
                     sampleItem "b" "May 1, 2025";
                     sampleItem "c" "April 15, 2025" ] (js "May 1, 2025")
              :: l2 ++ Grouping.groupOf
                         [ sampleItem "a" "April 15, 2025";
                           sampleItem "b" "May 1, 2025";
                           sampleItem "c" "April 15, 2025" ]
                         (js "April 15, 2025")
              :: l3.
Proof.
  assert (Hplain : forall i,
             In i [ sampleItem "a" "April 15, 2025";
                    sampleItem "b" "May 1, 2025";
                    sampleItem "c" "April 15, 2025" ] ->
             JSObject.inherited (Item.dateGroup i) = false).
  { intros i [<-|[<-|[<-|[]]]]; reflexivity. }
  split; [exact Hplain|].
  destruct (grouping_by_date MonthDayYear.parse _ Hplain)
    as (groups & Hrun & _ & _ & _ & Hdated).
  destruct Hdated as [_ Hmay].
  { intros i [<-|[<-|[<-|[]]]]; discriminate. }
  destruct (Hmay 1746057600000%Z 1744675200000%Z eq_refl eq_refl eq_refl)
    as (l1 & l2 & l3 & Hsplit).
  { right; left; reflexivity. }
  { left; reflexivity. }
  exists groups, l1, l2, l3. split; assumption.
Defined.

(** C3 as stated fails: with a label between them that is no date, the
    group of May 1 comes out before the group of June 1 of the same year.
    (Every comparison of neighbours is 0 here, so the three groups are one
    run that is already in order for the comparison function: a sort that
    looks for runs first leaves them as they are, like the insertion sort.) *)
Lemma grouping_not_recent_first :
  exists groups,
    App.sortedGroupedData MonthDayYear.parse
      [ sampleItem "a" "May 1, 2025"; sampleItem "b" "Undated";
        sampleItem "c" "June 1, 2025" ]
    = Some groups
    /\ ~ Grouping.recentFirst MonthDayYear.parse groups.
Proof.
  eexists. split; [vm_compute; reflexivity|].
  intros Hrecent.
  match type of Hrecent with
  | Grouping.recentFirst _ [?a; ?u; ?b] =>
      specialize (Hrecent [] a [u] b [] 1746057600000%Z 1748736000000%Z
                    eq_refl eq_refl eq_refl)
  end.
  lia.
Qed.

(** C4, as the code has it. When no label is a property name that plain
    objects inherit, the grouping returns its groups whether the labels are
    dates or not. A label that is no date makes every comparison with its
    group come out 0. When at most one label is a date, every comparison is
    0 and the groups come out in the order the object enumerates them
    (array-index labels ascending, then first occurrence), wherever the
    undated ones stand in it. Nothing is said of the order when an undated
    label stands among two or more different dates. *)
Theorem unparseable_labels_keep_place (Date_parse : jsstring -> option Z)
    (items : list Item.t)
    (Hplain : forall i, In i items ->
                        JSObject.inherited (Item.dateGroup i) = false) :
  exists groups,
    App.sortedGroupedData Date_parse items = Some groups
    /\ (forall a b,
           Date_parse (Group.date a) = None \/ Date_parse (Group.date b) = None ->
           JSArray.sortCompare (App.byDateDescending Date_parse) a b = 0%Z)
    /\ ((forall i j, In i items -> In j items ->
                     Date_parse (Item.dateGroup i) <> None ->
                     Date_parse (Item.dateGroup j) <> None ->
                     Item.dateGroup i = Item.dateGroup j) ->
        groups = Grouping.expected items
        /\ map Group.date groups
           = Grouping.propertyOrder (Grouping.distinct (Grouping.labels items))).
Proof.
  eexists. split; [apply sortedGroupedData_expected; assumption|].
  split; [apply sortCompare_undated|].
  intros Hone.
  assert (Hsame : JSArray.sort (App.byDateDescending Date_parse)
                    (Grouping.expected items) = Grouping.expected items).
  { apply sort_all_equal. intros x y Hx Hy.
    apply expected_groups in Hx, Hy.
    destruct Hx as [_ Hx], Hy as [_ Hy]. unfold Grouping.labels in Hx, Hy.
    apply in_map_iff in Hx, Hy.
    destruct Hx as (i & Hi & Hini), Hy as (j & Hj & Hinj).
    destruct (Date_parse (Group.date x)) as [tx|] eqn:Ex;
      [|apply sortCompare_undated; left; assumption].
    destruct (Date_parse (Group.date y)) as [ty|] eqn:Ey;
      [|apply sortCompare_undated; right; assumption].
    apply sortCompare_same_label. rewrite <- Hi, <- Hj.
    apply Hone; try assumption; congruence. }
  rewrite Hsame. split; [reflexivity | apply expected_dates].
Qed.

Lemma unparseable_labels_keep_place_witness :
  (forall i,
      In i [ sampleItem "a" "Undated"; sampleItem "b" "May 1, 2025";
             sampleItem "c" "Undated" ] ->
      JSObject.inherited (Item.dateGroup i) = false)
  /\ exists groups,
      App.sortedGroupedData MonthDayYear.parse
        [ sampleItem "a" "Undated"; sampleItem "b" "May 1, 2025";
          sampleItem "c" "Undated" ]
      = Some groups
      /\ map Group.date groups = [js "Undated"; js "May 1, 2025"].
Proof.
  assert (Hplain : forall i,
             In i [ sampleItem "a" "Undated"; sampleItem "b" "May 1, 2025";
                    sampleItem "c" "Undated" ] ->
             JSObject.inherited (Item.dateGroup i) = false).
  { intros i [<-|[<-|[<-|[]]]]; reflexivity. }
  split; [exact Hplain|].
  destruct (unparseable_labels_keep_place MonthDayYear.parse _ Hplain)
    as (groups & Hrun & _ & Hone).
  destruct Hone as [_ Horder].
  { intros i j [<-|[<-|[<-|[]]]] [<-|[<-|[<-|[]]]] Hi Hj;
      try reflexivity; exfalso; (apply Hi; reflexivity) || (apply Hj; reflexivity). }
  exists groups. split; [exact Hrun | exact Horder].
Defined.

(** C4 as stated fails: a group whose label is no date stays in front of a
    dated group. *)
Lemma unparseable_label_first :
  exists groups,
    App.sortedGroupedData MonthDayYear.parse
      [ sampleItem "a" "Undated"; sampleItem "b" "May 1, 2025" ]
    = Some groups
    /\ ~ Grouping.unparseableLast MonthDayYear.parse groups.
Proof.
  eexists. split; [vm_compute; reflexivity|].
  intros Hlast.
  match type of Hlast with
  | Grouping.unparseableLast _ [?u; ?m] =>
      specialize (Hlast [] u [] m [] eq_refl eq_refl)
  end.
  discriminate Hlast.
Qed.

(** A record labelled [constructor] is enough to make the listing fail. *)
Lemma gallery_constructor_label :
  App.sortedGroupedData MonthDayYear.parse
    [ sampleItem "a" "May 1, 2025"; sampleItem "b" "constructor" ] = None
  /\ App.getGallery MonthDayYear.parse
       [ sampleRow "a" 0;
         {| Row.id := js "b"; Row.type := js "image";
            Row.src := js "/uploads/1746057600000-b.png";
            Row.alt := Some (js "b.png"); Row.poster := None;
            Row.isFavorite := 0; Row.dateGroup := js "constructor";
            Row.categories := Some (js "[]") |} ]
     = Http.Error 500 "Failed to fetch gallery items".
Proof. split; reflexivity. Qed.

(* ================================================================== *)
(** * More properties of the handlers *)

(** ** Decimal numerals *)

Lemma digitsValue_snoc (s : jsstring) (c : N) :
  JSString.digitsValue (s ++ [c])
  = (10 * JSString.digitsValue s + (c - 48))%N.
Proof. unfold JSString.digitsValue. rewrite fold_left_app. reflexivity. Qed.

Lemma isDigit_of_mod (n : N) : JSString.isDigit (48 + n mod 10) = true.
Proof.
  unfold JSString.isDigit.
  pose proof (N.mod_lt n 10 ltac:(discriminate)) as H.
  set (m := (n mod 10)%N) in *. clearbody m.
  apply andb_true_iff. split; apply N.leb_le; lia.
Qed.

(** With fuel above the binary length of [n], the loop prepends the decimal
    digits of [n]. *)
Lemma digitsFrom_spec (fuel : nat) :
  forall (n : N) (acc : jsstring),
    (n < 2 ^ N.of_nat (S fuel))%N ->
    exists ds,
      JSString.digitsFrom (S fuel) n acc = ds ++ acc
      /\ ds <> [] /\ isDigits ds /\ JSString.digitsValue ds = n.
Proof.
  assert (Hone : forall n acc, (n < 10)%N ->
            exists ds, (48 + n mod 10)%N :: acc = ds ++ acc
                       /\ ds <> [] /\ isDigits ds
                       /\ JSString.digitsValue ds = n).
  { intros n acc Hsmall. exists [(48 + n mod 10)%N].
    split; [reflexivity|]. split; [discriminate|]. split.
    - constructor; [apply isDigit_of_mod | constructor].
    - unfold JSString.digitsValue. cbn [fold_left].
      rewrite N.mod_small by assumption. lia. }
  induction fuel as [|fuel IH]; intros n acc Hn.
  - cbn [JSString.digitsFrom].
    assert (Hsmall : (n < 10)%N) by (simpl in Hn; lia).
    destruct (N.ltb_spec n 10); [|lia]. apply Hone. assumption.
  - cbn [JSString.digitsFrom].
    destruct (N.ltb_spec n 10) as [Hsmall|Hbig]; [apply Hone; assumption|].
    assert (Hdiv : (n / 10 < 2 ^ N.of_nat (S fuel))%N).
    { rewrite (Nat2N.inj_succ (S fuel)), N.pow_succ_r' in Hn.
      apply N.Div0.div_lt_upper_bound. lia. }
    destruct (IH (n / 10)%N ((48 + n mod 10)%N :: acc) Hdiv)
      as (ds & Hds & Hne & Hdig & Hval).
    exists (ds ++ [(48 + n mod 10)%N]). split.
    { cbn [JSString.digitsFrom] in Hds. rewrite Hds, <- app_assoc.
      reflexivity. }
    split; [destruct ds; discriminate|]. split.
    + apply Forall_app. split; [assumption|].
      constructor; [apply isDigit_of_mod | constructor].
    + rewrite digitsValue_snoc, Hval.
      pose proof (N.div_mod n 10 ltac:(discriminate)) as Hdm.
      set (q := (n / 10)%N) in *. set (m := (n mod 10)%N) in *.
      clearbody q m. lia.
Qed.

Lemma ofN_spec (n : N) :
  JSString.ofN n <> [] /\ isDigits (JSString.ofN n)
  /\ JSString.digitsValue (JSString.ofN n) = n.
Proof.
  unfold JSString.ofN.
  assert (Hn : (n < 2 ^ N.of_nat (S (N.to_nat (N.log2 n))))%N).
  { rewrite Nat2N.inj_succ, N2Nat.id.
    destruct n as [|p]; [reflexivity|].
    apply N.log2_spec. reflexivity. }
  destruct (@digitsFrom_spec _ n [] Hn) as (ds & Hds & Hne & Hdig & Hval).
  rewrite Hds, app_nil_r. auto.
Qed.

Lemma ofN_injective (n m : N) : JSString.ofN n = JSString.ofN m -> n = m.
Proof.
  intros H. destruct (ofN_spec n) as (_ & _ & Hn).
  destruct (ofN_spec m) as (_ & _ & Hm). congruence.
Qed.

(** Two numerals followed by a dash and anything: the texts are equal only
    if the numerals and the rests are. *)
Lemma digits_dash_injective (d1 d2 r1 r2 : jsstring) :
  isDigits d1 -> isDigits d2 ->
  d1 ++ 45%N :: r1 = d2 ++ 45%N :: r2 -> d1 = d2 /\ r1 = r2.
Proof.
  revert d2. induction d1 as [|c d1 IH]; intros d2 H1 H2 Heq.
  - destruct d2 as [|c2 d2]; simpl in Heq.
    + inversion Heq. auto.
    + inversion Heq; subst. inversion H2 as [|? ? Hc _]; subst.
      discriminate Hc.
  - destruct d2 as [|c2 d2]; simpl in Heq.
    + inversion Heq; subst. inversion H1 as [|? ? Hc _]; subst.
      discriminate Hc.
    + inversion Heq; subst. inversion H1; inversion H2; subst.
      destruct (IH d2) as [-> ->]; auto.
Qed.

(** X6. The upload handler gives two uploads the same id only when both
    [Date.now()] and the random suffix are the same. *)
Theorem uploadId_injective (now1 now2 : N) (random1 random2 : jsstring) :
  uploadId now1 random1 = uploadId now2 random2 <->
  now1 = now2 /\ random1 = random2.
Proof.
  split; [|intros [-> ->]; reflexivity].
  unfold uploadId. intros H. apply app_inv_head in H.
  destruct (ofN_spec now1) as (_ & H1 & _).
  destruct (ofN_spec now2) as (_ & H2 & _).
  apply (@digits_dash_injective _ _ random1 random2 H1 H2) in H.
  destruct H as [Hn Hr].
  split; [apply ofN_injective; assumption | assumption].
Qed.

Lemma uploadId_injective_witness :
  uploadId 1746057600123 (js "k3j9x2a") = uploadId 1746057600123 (js "k3j9x2a")
  /\ uploadId 1746057600123 (js "k3j9x2a") <> uploadId 1746057600124 (js "k3j9x2a").
Proof.
  split.
  - apply (proj2 (uploadId_injective 1746057600123 1746057600123
                    (js "k3j9x2a") (js "k3j9x2a"))).
    split; reflexivity.
  - intros H.
    apply (proj1 (uploadId_injective 1746057600123 1746057600124
                    (js "k3j9x2a") (js "k3j9x2a"))) in H.
    destruct H as [H _]. discriminate H.
Defined.

(** ** File names *)

Lemma takeSegment_noSlash (s : jsstring) : noSlash (Path.takeSegment s).
Proof.
  induction s as [|c s IH]; simpl; [constructor|].
  destruct (Path.isSlash c) eqn:E; constructor; assumption.
Qed.

Lemma basename_noSlash (p : jsstring) : noSlash (Path.basename p).
Proof.
  unfold Path.basename, noSlash. apply Forall_rev. apply takeSegment_noSlash.
Qed.

Lemma takeSegment_app (a b : jsstring) :
  noSlash a -> Path.takeSegment (a ++ 47%N :: b) = a.
Proof.
  induction a as [|c a IH]; intros Ha; simpl; [reflexivity|].
  inversion Ha as [|? ? Hc Ha']; subst. rewrite Hc, IH by assumption.
  reflexivity.
Qed.

(** The base name of a file stored directly under [/uploads/]. *)
Lemma basename_upload (name : jsstring) :
  name <> [] -> noSlash name ->
  Path.basename (js "/uploads/" ++ name) = name.
Proof.
  intros Hne Hname. unfold Path.basename. rewrite rev_app_distr.
  assert (Hrev : noSlash (rev name)) by (apply Forall_rev; assumption).
  destruct (rev name) as [|c r] eqn:E.
  { exfalso. apply Hne. rewrite <- (rev_involutive name), E. reflexivity. }
  inversion Hrev as [|? ? Hc Hr]; subst.
  cbn [app Path.dropSlashes]. rewrite Hc.
  change (rev (js "/uploads/")) with (47%N :: rev (js "/uploads")).
  change (c :: r ++ 47%N :: rev (js "/uploads"))
    with ((c :: r) ++ 47%N :: rev (js "/uploads")).
  rewrite takeSegment_app by (constructor; assumption).
  rewrite <- E. apply rev_involutive.
Qed.

Lemma filename_noSlash (now : N) (originalname : jsstring) :
  noSlash originalname ->
  Multer.filename now originalname <> []
  /\ noSlash (Multer.filename now originalname).
Proof.
  intros Horig. unfold Multer.filename.
  destruct (ofN_spec now) as (Hne & Hdig & _). split.
  - destruct (JSString.ofN now); [contradiction | discriminate].
  - apply Forall_app. split.
    + eapply Forall_impl; [|exact Hdig]. intros c Hc.
      unfold JSString.isDigit in Hc. unfold Path.isSlash.
      apply andb_true_iff in Hc. destruct Hc as [Hc _].
      apply N.leb_le in Hc. apply N.eqb_neq. lia.
    + constructor; [reflexivity | assumption].
Qed.

(** ** Uploads, once more *)

Lemma get_none_iff (db : Sqlite.table) (itemId : jsstring) :
  Sqlite.get db itemId = None <-> existsb (Sqlite.hasId itemId) db = false.
Proof.
  unfold Sqlite.get. split.
  - intros H. destruct (existsb (Sqlite.hasId itemId) db) eqn:E; [|reflexivity].
    apply existsb_exists in E. destruct E as (r & Hin & Hr).
    rewrite (find_none _ _ H r Hin) in Hr. discriminate.
  - intros H. destruct (find (Sqlite.hasId itemId) db) as [r|] eqn:E;
      [|reflexivity].
    apply find_some in E. destruct E as [Hin Hr].
    assert (existsb (Sqlite.hasId itemId) db = true)
      by (apply existsb_exists; eauto).
    congruence.
Qed.

Lemma startsWith_app (prefix s : jsstring) :
  JSString.startsWith (prefix ++ s) prefix = true.
Proof.
  induction prefix as [|c prefix IH]; simpl; [destruct s; reflexivity|].
  rewrite N.eqb_refl. exact IH.
Qed.

(** What a 201 says about the request and the table. *)
Lemma postGallery_created (num : jsstring -> jsstring) (now : N)
    (random : jsstring) (req : Http.upload) (db db' : Sqlite.table)
    (item : Item.t) :
  App.postGallery num now random req db = (Http.Json 201 item, db') ->
  exists file,
    Http.mediaFile req = Some file
    /\ Http.dateGroup req = Some (Item.dateGroup item)
    /\ Sqlite.get db (uploadId now random) = None
    /\ db' = db ++ [rowOf num item]
    /\ Item.id item = uploadId now random
    /\ Item.src item = js "/uploads/" ++ Http.filename file
    /\ Item.isFavorite item = false.
Proof.
  unfold App.postGallery. intros H.
  destruct (Http.mediaFile req) as [file|]; [|discriminate].
  destruct (Http.dateGroup req) as [dateGroup|]; [|discriminate].
  match type of H with
  | context [Sqlite.insert db ?r] => set (row := r) in *
  end.
  unfold Sqlite.insert in H.
  destruct (existsb (Sqlite.hasId (Row.id row)) db) eqn:E; [discriminate|].
  inversion H; subst item db'; clear H.
  exists file. repeat split.
  apply get_none_iff. exact E.
Qed.

(** X3. An upload either answers 201, having appended exactly one row under
    a fresh id to the table as it was, or answers an error and leaves the
    table as it was; it answers 201 exactly when the request has a file and
    a [dateGroup] field and the generated id is not yet in the table. *)
Theorem upload_outcome (num : jsstring -> jsstring) (now : N)
    (random : jsstring) (req : Http.upload) (db : Sqlite.table) :
  (exists item,
      App.postGallery num now random req db
      = (Http.Json 201 item, db ++ [rowOf num item])
      /\ Item.id item = uploadId now random
      /\ Http.mediaFile req <> None
      /\ Http.dateGroup req <> None
      /\ Sqlite.get db (uploadId now random) = None)
  \/ (exists status message,
         App.postGallery num now random req db
         = (Http.Error status message, db)
         /\ (Http.mediaFile req = None
             \/ Http.dateGroup req = None
             \/ Sqlite.get db (uploadId now random) <> None)).
Proof.
  destruct (App.postGallery num now random req db) as [answer db'] eqn:E.
  destruct answer as [status item|status message].
  - left. exists item.
    assert (Hstatus : status = 201%nat).
    { unfold App.postGallery in E.
      destruct (Http.mediaFile req); [|discriminate].
      destruct (Http.dateGroup req); [|discriminate].
      match type of E with
      | context [Sqlite.insert db ?r] => destruct (Sqlite.insert db r)
      end; inversion E; reflexivity. }
    subst status.
    destruct (postGallery_created _ _ _ _ _ E)
      as (file & Hfile & Hdate & Hfresh & Hdb & Hid & _).
    subst db'. repeat split; try assumption; congruence.
  - right. exists status, message.
    unfold App.postGallery in E.
    destruct (Http.mediaFile req) as [file|];
      [|inversion E; subst; split; [reflexivity | left; reflexivity]].
    destruct (Http.dateGroup req) as [dateGroup|];
      [|inversion E; subst; split; [reflexivity | right; left; reflexivity]].
    match type of E with
    | context [Sqlite.insert db ?r] => set (row := r) in *
    end.
    unfold Sqlite.insert in E.
    destruct (existsb (Sqlite.hasId (Row.id row)) db) eqn:Eid;
      [|discriminate].
    inversion E; subst. split; [reflexivity|]. right. right.
    intros Hnone. apply get_none_iff in Hnone.
    change (Row.id row) with (uploadId now random) in Eid. congruence.
Qed.

Lemma processedItems_app (rows1 rows2 : list Row.t) :
  App.processedItems (rows1 ++ rows2)
  = match App.processedItems rows1, App.processedItems rows2 with
    | Some items1, Some items2 => Some (items1 ++ items2)
    | _, _ => None
    end.
Proof.
  induction rows1 as [|r rows1 IH]; simpl.
  - destruct (App.processedItems rows2); reflexivity.
  - rewrite IH. destruct (App.processItem r); [|reflexivity].
    destruct (App.processedItems rows1); [|reflexivity].
    destruct (App.processedItems rows2); reflexivity.
Qed.

(** X4. After an upload answered 201 whose categories are an array of
    strings (the empty array of the fallback included), the listing of the
    table is the listing before it followed by the very item the upload
    answered with. *)
Theorem upload_then_list (num : jsstring -> jsstring) (now : N)
    (random : jsstring) (req : Http.upload) (db db' : Sqlite.table)
    (item : Item.t) (items : list Item.t) (strings : list jsstring)
    (Hcreated : App.postGallery num now random req db
                = (Http.Json 201 item, db'))
    (Hstrings : Item.categories item = JSON.JArr (map JSON.JStr strings))
    (Hlist : App.processedItems (Sqlite.all db) = Some items) :
  App.processedItems (Sqlite.all db') = Some (items ++ [item]).
Proof.
  destruct (postGallery_created _ _ _ _ _ Hcreated)
    as (file & _ & _ & _ & Hdb & _ & _ & Hfav).
  subst db'. unfold Sqlite.all in *. rewrite processedItems_app, Hlist.
  assert (Hrow : App.processItem (rowOf num item) = Some item).
  { unfold App.processItem, rowOf. cbn [Row.categories].
    unfold App.decodeCategories. rewrite Hstrings, stringify_strings.
    change (JSString.orElse (Some (JSON.stringifyStrings strings)) (js "[]"))
      with (JSON.stringifyStrings strings).
    rewrite parse_stringifyStrings. rewrite <- Hstrings.
    cbn [Row.id Row.type Row.src Row.alt Row.poster Row.isFavorite
           Row.dateGroup].
    rewrite Hfav. destruct item; simpl in *. subst. reflexivity. }
  cbn [App.processedItems]. rewrite Hrow. reflexivity.
Qed.

Lemma upload_then_list_witness :
  exists db',
    App.postGallery (fun lexeme => lexeme) 1746057600123 (js "k3j9x2a")
      sampleUpload [sampleRow "a" 0]
    = (Http.Json 201 sampleCreated, db')
    /\ Item.categories sampleCreated = JSON.JArr (map JSON.JStr [])
    /\ App.processedItems (Sqlite.all db')
       = Some ([sampleItem "a" "May 1, 2025"] ++ [sampleCreated]).
Proof.
  eexists. split; [vm_compute; reflexivity|]. split; [reflexivity|].
  apply (@upload_then_list (fun lexeme => lexeme) 1746057600123
           (js "k3j9x2a") sampleUpload [sampleRow "a" 0] _ sampleCreated
           [sampleItem "a" "May 1, 2025"] [] eq_refl eq_refl eq_refl).
Defined.

Lemma find_app_none (A : Type) (f : A -> bool) (l1 l2 : list A) :
  find f l1 = None -> find f (l1 ++ l2) = find f l2.
Proof.
  induction l1 as [|x l1 IH]; simpl; [reflexivity|].
  destruct (f x); [discriminate | exact IH].
Qed.

Lemma filter_all (A : Type) (f : A -> bool) (l : list A) :
  (forall x, In x l -> f x = true) -> filter f l = l.
Proof.
  induction l as [|x l IH]; simpl; intros H; [reflexivity|].
  rewrite (H x) by (left; reflexivity). f_equal. apply IH.
  intros; apply H; right; assumption.
Qed.

Lemma filter_none (A : Type) (f : A -> bool) (l : list A) :
  (forall x, In x l -> f x = false) -> filter f l = [].
Proof.
  induction l as [|x l IH]; simpl; intros H; [reflexivity|].
  rewrite (H x) by (left; reflexivity). apply IH.
  intros; apply H; right; assumption.
Qed.

(** X5. Deleting an upload right after it was answered 201 gives the table
    back as it was before the upload and hands to [fs.unlink] exactly the
    file multer stored, when the original name has no slash. *)
Theorem upload_then_delete (num : jsstring -> jsstring) (now stored : N)
    (random : jsstring) (req : Http.upload) (db db' : Sqlite.table)
    (item : Item.t) (file : Http.file)
    (Hcreated : App.postGallery num now random req db
                = (Http.Json 201 item, db'))
    (Hfile : Http.mediaFile req = Some file)
    (Hstored : Http.filename file
               = Multer.filename stored (Http.originalname file))
    (Hname : noSlash (Http.originalname file)) :
  App.deleteGallery (Item.id item) db'
  = (itemDeleted (Item.id item), db, Some (Http.filename file)).
Proof.
  destruct (postGallery_created _ _ _ _ _ Hcreated)
    as (file' & Hfile' & _ & Hfresh & Hdb & Hid & Hsrc & _).
  rewrite Hfile in Hfile'. inversion Hfile'; subst file'. subst db'.
  rewrite <- Hid in Hfresh.
  set (itemId := Item.id item) in *.
  assert (Hrows : forall r, In r db -> Sqlite.hasId itemId r = false).
  { intros r Hin. unfold Sqlite.get in Hfresh.
    apply (find_none _ _ Hfresh r Hin). }
  assert (Hrow : Sqlite.hasId itemId (rowOf num item) = true).
  { unfold Sqlite.hasId, rowOf. cbn [Row.id]. apply eqb_refl. }
  unfold App.deleteGallery.
  assert (Hget : Sqlite.get (db ++ [rowOf num item]) itemId
                 = Some (rowOf num item)).
  { unfold Sqlite.get in *. rewrite find_app_none by assumption.
    simpl. rewrite Hrow. reflexivity. }
  rewrite Hget. unfold Sqlite.delete. rewrite !filter_app.
  rewrite (filter_all (fun r => negb (Sqlite.hasId itemId r)) db)
    by (intros r Hin; rewrite (Hrows r Hin); reflexivity).
  rewrite (filter_none (Sqlite.hasId itemId) db) by assumption.
  cbn [filter app]. rewrite Hrow. cbn [negb app length Nat.eqb].
  rewrite app_nil_r.
  change (Row.src (rowOf num item)) with (Item.src item). rewrite Hsrc.
  rewrite startsWith_app.
  destruct (filename_noSlash stored Hname) as [Hne Hno].
  rewrite <- Hstored in Hne, Hno.
  rewrite basename_upload by assumption. reflexivity.
Qed.

Lemma upload_then_delete_witness :
  noSlash (js "clip.mp4")
  /\ exists db',
      App.postGallery (fun lexeme => lexeme) 1746057600123 (js "k3j9x2a")
        sampleUpload [sampleRow "a" 0]
      = (Http.Json 201 sampleCreated, db')
      /\ App.deleteGallery (Item.id sampleCreated) db'
         = (itemDeleted (Item.id sampleCreated), [sampleRow "a" 0],
            Some (js "1746057600000-clip.mp4")).
Proof.
  assert (Hname : noSlash (js "clip.mp4")) by (repeat constructor).
  split; [exact Hname|].
  eexists. split; [vm_compute; reflexivity|].
  apply (@upload_then_delete (fun lexeme => lexeme) 1746057600123
           1746057600000 (js "k3j9x2a") sampleUpload [sampleRow "a" 0] _
           sampleCreated
           {| Http.originalname := js "clip.mp4";
              Http.mimetype := js "video/mp4";
              Http.filename := js "1746057600000-clip.mp4" |}
           eq_refl eq_refl eq_refl Hname).
Defined.

(** ** What the table keeps *)

Lemma seed_appends (items : list Db.mockItem) (db db' : Sqlite.table) :
  Db.seed items db = Some db' -> db' = db ++ map Db.seedRow items.
Proof.
  revert db. induction items as [|item items IH]; simpl; intros db H.
  - inversion H. rewrite app_nil_r. reflexivity.
  - unfold Sqlite.insert in H.
    destruct (existsb (Sqlite.hasId (Row.id (Db.seedRow item))) db);
      [discriminate|].
    apply IH in H. rewrite H, <- app_assoc. reflexivity.
Qed.

(** X1. Distinct ids stay distinct: [initializeDatabase()] and the upload,
    favorite and delete handlers all leave a table whose ids are pairwise
    different, if they were so before. *)
Theorem primary_key_kept (db : Sqlite.table)
    (Hkey : NoDup (map Row.id db)) :
  (forall db', Db.initializeDatabase db = Some db' -> NoDup (map Row.id db'))
  /\ (forall num now random req,
         NoDup (map Row.id (snd (App.postGallery num now random req db))))
  /\ (forall itemId, NoDup (map Row.id (snd (App.putFavorite itemId db))))
  /\ (forall itemId,
         NoDup (map Row.id (snd (fst (App.deleteGallery itemId db))))).
Proof.
  split.
  - intros db'. apply initializeDatabase_unique. assumption.
  - apply handlers_unique. assumption.
Qed.

Lemma primary_key_kept_witness :
  NoDup (map Row.id [sampleRow "a" 0; sampleRow "b" 1])
  /\ NoDup (map Row.id
              (snd (App.putFavorite (js "a")
                      [sampleRow "a" 0; sampleRow "b" 1]))).
Proof.
  assert (Hkey : NoDup (map Row.id [sampleRow "a" 0; sampleRow "b" 1])).
  { repeat constructor; simpl; intuition discriminate. }
  split; [exact Hkey|].
  apply (@primary_key_kept [sampleRow "a" 0; sampleRow "b" 1] Hkey).
Defined.

Lemma seedRows_flags : flags01 (map Db.seedRow Db.initialMockGalleryItems).
Proof.
  unfold flags01. simpl.
  repeat (apply Forall_cons; [simpl; auto|]). apply Forall_nil.
Qed.

(** X2. The favorite column stays 0 or 1 in every row:
    [initializeDatabase()] and the upload, favorite and delete handlers
    all keep it so. *)
Theorem flags_kept (db : Sqlite.table) (Hflags : flags01 db) :
  (forall db', Db.initializeDatabase db = Some db' -> flags01 db')
  /\ (forall num now random req,
         flags01 (snd (App.postGallery num now random req db)))
  /\ (forall itemId, flags01 (snd (App.putFavorite itemId db)))
  /\ (forall itemId, flags01 (snd (fst (App.deleteGallery itemId db)))).
Proof.
  unfold flags01 in *. split; [|split; [|split]].
  - intros db'. unfold Db.initializeDatabase.
    destruct (Db.isTableEmpty db).
    + intros H. apply seed_appends in H. subst db'.
      apply Forall_app. split; [assumption | apply seedRows_flags].
    + intros H; inversion H; subst; assumption.
  - intros num now random req.
    unfold App.postGallery.
    destruct (Http.mediaFile req); [|assumption].
    destruct (Http.dateGroup req); [|assumption].
    unfold Sqlite.insert.
    match goal with
    | |- context [existsb ?f db] => destruct (existsb f db)
    end; [assumption|].
    cbn [snd]. apply Forall_app. split; [assumption|].
    constructor; [left; reflexivity | constructor].
  - intros itemId. unfold App.putFavorite.
    destruct (Sqlite.get db itemId) as [item|]; [|assumption].
    cbn [snd]. unfold Sqlite.updateFavorite. apply Forall_map.
    eapply Forall_impl; [|exact Hflags]. intros r Hr.
    destruct (Sqlite.hasId itemId r); [|assumption].
    unfold App.newFavoriteStatus. simpl.
    destruct (Row.isFavorite item =? 0)%Z; auto.
  - intros itemId. unfold App.deleteGallery.
    destruct (Sqlite.get db itemId) as [item|]; [|assumption].
    unfold Sqlite.delete.
    assert (Hfilter : Forall
              (fun r => Row.isFavorite r = 0%Z \/ Row.isFavorite r = 1%Z)
              (filter (fun r => negb (Sqlite.hasId itemId r)) db)).
    { apply Forall_forall. intros r Hr. apply filter_In in Hr.
      rewrite Forall_forall in Hflags. apply Hflags. tauto. }
    destruct (length (filter (Sqlite.hasId itemId) db) =? 0)%nat; assumption.
Qed.

Lemma flags_kept_witness :
  flags01 [sampleRow "a" 0; sampleRow "b" 1]
  /\ flags01 (snd (App.putFavorite (js "b")
                     [sampleRow "a" 0; sampleRow "b" 1])).
Proof.
  assert (Hflags : flags01 [sampleRow "a" 0; sampleRow "b" 1]).
  { unfold flags01. repeat (apply Forall_cons; [simpl; auto|]).
    apply Forall_nil. }
  split; [exact Hflags|].
  apply (@flags_kept [sampleRow "a" 0; sampleRow "b" 1] Hflags).
Defined.

(** ** Favorites, once more *)

Lemma unflagged_withFavorite (r : Row.t) (v : Z) :
  unflagged (Row.withFavorite r v) = unflagged r.
Proof. reflexivity. Qed.

(** X7. The favorite handler changes nothing but the flag of the rows with
    the given id: the rows, their order and all their other columns are as
    before, and a row with another id is the same row. *)
Theorem favorite_frame (itemId : jsstring) (db : Sqlite.table) :
  let db' := snd (App.putFavorite itemId db) in
  map unflagged db' = map unflagged db
  /\ Forall2 (fun r r' => Row.id r <> itemId -> r' = r) db db'.
Proof.
  intros db'. unfold db', App.putFavorite.
  destruct (Sqlite.get db itemId) as [item|]; cbn [snd].
  - unfold Sqlite.updateFavorite. split.
    + rewrite map_map. apply map_ext. intros r.
      destruct (Sqlite.hasId itemId r); [apply unflagged_withFavorite|].
      reflexivity.
    + induction db as [|r db IH]; simpl; constructor; [|exact IH].
      intros Hne. destruct (Sqlite.hasId itemId r) eqn:E; [|reflexivity].
      unfold Sqlite.hasId in E. apply eqb_eq in E. contradiction.
  - split; [reflexivity|].
    induction db as [|r db IH]; constructor; auto.
Qed.

Lemma get_unique (db : Sqlite.table) (itemId : jsstring) (item : Row.t) :
  NoDup (map Row.id db) -> Sqlite.get db itemId = Some item ->
  forall r, In r db -> Sqlite.hasId itemId r = true -> r = item.
Proof.
  unfold Sqlite.get. induction db as [|x db IH]; simpl; [discriminate|].
  intros Hnd Hget r Hin Hr. inversion Hnd as [|? ? Hnotin Hnd']; subst.
  destruct (Sqlite.hasId itemId x) eqn:E.
  - inversion Hget; subst. destruct Hin as [->|Hin]; [reflexivity|].
    exfalso. apply Hnotin. apply in_map_iff. exists r.
    unfold Sqlite.hasId in *. apply eqb_eq in E, Hr. split; congruence.
  - destruct Hin as [->|Hin]; [congruence|]. apply IH; assumption.
Qed.

(** X8. With distinct ids and a flag that is 0 or 1, toggling the favorite
    of a record twice gives back the table exactly as it was. *)
Theorem favorite_twice (itemId : jsstring) (db : Sqlite.table)
    (item : Row.t)
    (Hkey : NoDup (map Row.id db))
    (Hget : Sqlite.get db itemId = Some item)
    (Hflag : Row.isFavorite item = 0%Z \/ Row.isFavorite item = 1%Z) :
  snd (App.putFavorite itemId (snd (App.putFavorite itemId db))) = db.
Proof.
  unfold App.putFavorite at 2. rewrite Hget. cbn [snd].
  set (v := App.newFavoriteStatus (Row.isFavorite item)).
  unfold App.putFavorite.
  rewrite (@get_updateFavorite_same db v itemId item Hget). cbn [snd].
  change (Row.isFavorite (Row.withFavorite item v)) with v.
  assert (Hback : App.newFavoriteStatus v = Row.isFavorite item).
  { unfold v, App.newFavoriteStatus.
    destruct Hflag as [-> | ->]; reflexivity. }
  rewrite Hback. unfold Sqlite.updateFavorite. rewrite map_map.
  rewrite <- (map_id db) at 2. apply map_ext_in. intros r Hin.
  destruct (Sqlite.hasId itemId r) eqn:E.
  - unfold Sqlite.hasId. rewrite id_withFavorite.
    fold (Sqlite.hasId itemId r). rewrite E.
    rewrite (@get_unique db itemId item Hkey Hget r Hin E).
    destruct item; reflexivity.
  - rewrite E. reflexivity.
Qed.

Lemma favorite_twice_witness :
  NoDup (map Row.id [sampleRow "a" 0; sampleRow "b" 1])
  /\ Sqlite.get [sampleRow "a" 0; sampleRow "b" 1] (js "b")
     = Some (sampleRow "b" 1)
  /\ snd (App.putFavorite (js "b")
            (snd (App.putFavorite (js "b")
                    [sampleRow "a" 0; sampleRow "b" 1])))
     = [sampleRow "a" 0; sampleRow "b" 1].
Proof.
  assert (Hkey : NoDup (map Row.id [sampleRow "a" 0; sampleRow "b" 1])).
  { repeat constructor; simpl; intuition discriminate. }
  split; [exact Hkey|]. split; [reflexivity|].
  apply (@favorite_twice (js "b") [sampleRow "a" 0; sampleRow "b" 1]
           (sampleRow "b" 1) Hkey eq_refl).
  right. reflexivity.
Defined.

(** ** Deleting, once more *)

Lemma startsWith_prefix (s prefix : jsstring) :
  JSString.startsWith s prefix = true -> exists rest, s = prefix ++ rest.
Proof.
  revert s. induction prefix as [|c prefix IH]; intros s; simpl.
  - intros _. exists s. reflexivity.
  - destruct s as [|x s]; simpl; [discriminate|].
    destruct (N.eqb_spec c x); simpl; [|discriminate].
    intros H. destruct (IH s H) as [rest ->]. exists rest. congruence.
Qed.

Lemma dropSlashes_head (s : jsstring) (c : N) :
  In c s -> Path.isSlash c = false ->
  exists d t, Path.dropSlashes s = d :: t /\ Path.isSlash d = false.
Proof.
  induction s as [|x s IH]; simpl; [contradiction|].
  intros Hin Hc. destruct (Path.isSlash x) eqn:E.
  - destruct Hin as [->|Hin]; [congruence|]. apply IH; assumption.
  - exists x, s. auto.
Qed.

(** The base name of a path under [/uploads/] is not empty. *)
Lemma basename_upload_nonempty (src : jsstring) :
  JSString.startsWith src (js "/uploads/") = true -> Path.basename src <> [].
Proof.
  intros H. apply startsWith_prefix in H. destruct H as [rest ->].
  unfold Path.basename.
  assert (Hin : In 117%N (rev (js "/uploads/" ++ rest))).
  { apply in_rev. rewrite rev_involutive. apply in_or_app. left.
    simpl. tauto. }
  destruct (@dropSlashes_head _ 117%N Hin eq_refl)
    as (d & t & Hdrop & Hd).
  rewrite Hdrop. cbn [Path.takeSegment]. rewrite Hd.
  intros Hnil. apply (f_equal (@rev N)) in Hnil.
  rewrite rev_involutive in Hnil. discriminate Hnil.
Qed.

(** X9. The delete handler asks for a file to be removed only together
    with a 200 and only for a record, found by its id, whose [src] starts
    with [/uploads/]; the name it joins to the upload directory is the base
    name of that [src], which is not empty and has no slash in it. *)
Theorem delete_unlinks_upload (itemId : jsstring) (db db' : Sqlite.table)
    (answer : Http.response Http.deleteReply) (name : jsstring)
    (Hunlink : App.deleteGallery itemId db = (answer, db', Some name)) :
  answer = itemDeleted itemId
  /\ name <> []
  /\ noSlash name
  /\ exists item,
      Sqlite.get db itemId = Some item
      /\ JSString.startsWith (Row.src item) (js "/uploads/") = true
      /\ name = Path.basename (Row.src item).
Proof.
  unfold App.deleteGallery in Hunlink.
  destruct (Sqlite.get db itemId) as [item|]; [|discriminate].
  destruct (Sqlite.delete db itemId) as [rest changes].
  destruct (changes =? 0)%nat; [discriminate|].
  destruct (JSString.startsWith (Row.src item) (js "/uploads/")) eqn:E;
    [|discriminate].
  inversion Hunlink; subst. split; [reflexivity|].
  split; [apply basename_upload_nonempty; assumption|].
  split; [apply basename_noSlash|]. exists item. auto.
Qed.

Lemma delete_unlinks_upload_witness :
  App.deleteGallery (js "a") [sampleRow "a" 0; sampleRow "b" 1]
  = (itemDeleted (js "a"), [sampleRow "b" 1],
     Some (js "1746057600000-a.png"))
  /\ js "1746057600000-a.png" <> []
  /\ noSlash (js "1746057600000-a.png").
Proof.
  split; [reflexivity|].
  destruct (@delete_unlinks_upload (js "a")
              [sampleRow "a" 0; sampleRow "b" 1] [sampleRow "b" 1]
              (itemDeleted (js "a")) (js "1746057600000-a.png") eq_refl)
    as (_ & Hname & Hslash & _).
  split; assumption.
Defined.

(** X15. The second not-found answer of the delete handler, for a row
    that the lookup found but the delete statement did not, is never given
    when both see the same table. *)
Theorem delete_found_is_deleted (itemId : jsstring) (db db' : Sqlite.table)
    (unlinked : option jsstring) :
  App.deleteGallery itemId db
  <> (Http.Error 404 "Item not found in database", db', unlinked).
Proof.
  unfold App.deleteGallery.
  destruct (Sqlite.get db itemId) as [item|] eqn:Hget; [|discriminate].
  pose proof (@delete_changes db itemId item Hget) as Hchanges.
  destruct (Sqlite.delete db itemId) as [rest changes].
  cbn [snd] in Hchanges. rewrite Hchanges. discriminate.
Qed.

(** ** The grouping, once more *)

Lemma filter_filter_implied (A : Type) (f g : A -> bool) (l : list A) :
  (forall x, f x = true -> g x = true) ->
  filter f (filter g l) = filter f l.
Proof.
  intros Himp. induction l as [|x l IH]; simpl; [reflexivity|].
  destruct (g x) eqn:Eg; simpl.
  - destruct (f x); rewrite IH; reflexivity.
  - destruct (f x) eqn:Ef; [|exact IH].
    apply Himp in Ef. congruence.
Qed.

(** The items of the labels, label by label, are the items. *)
Lemma groups_partition (ks : list jsstring) :
  forall items : list Item.t,
    NoDup ks ->
    (forall i, In i items -> In (Item.dateGroup i) ks) ->
    Permutation
      (flat_map (fun k => filter (Grouping.labelled k) items) ks) items.
Proof.
  induction ks as [|k ks IH]; intros items Hnd Hcover.
  - destruct items as [|i items]; [reflexivity|].
    destruct (Hcover i (or_introl eq_refl)).
  - inversion Hnd as [|? ? Hnotin Hnd']; subst. cbn [flat_map].
    set (rest := filter (fun i => negb (Grouping.labelled k i)) items).
    assert (Hsame : flat_map (fun k' => filter (Grouping.labelled k') items) ks
                    = flat_map (fun k' => filter (Grouping.labelled k') rest) ks).
    { rewrite !flat_map_concat_map. f_equal. apply map_ext_in.
      intros k' Hk'. unfold rest. symmetry. apply filter_filter_implied.
      intros i Hi. unfold Grouping.labelled in *. apply eqb_eq in Hi.
      apply negb_true_iff. apply eqb_neq. intros Hk. apply Hnotin.
      congruence. }
    rewrite Hsame, (IH rest Hnd').
    + apply filter_split_perm.
    + intros i Hi. unfold rest in Hi. apply filter_In in Hi.
      destruct Hi as [Hin Hk]. destruct (Hcover i Hin) as [Heq|Hks];
        [|assumption].
      unfold Grouping.labelled in Hk. rewrite <- Heq, eqb_refl in Hk.
      discriminate.
Qed.

(** X10. The grouping loses and repeats nothing: when no label is a name
    that plain objects inherit, the items of all groups together are the
    input items, each once, and no group is empty. *)
Theorem grouping_partitions (Date_parse : jsstring -> option Z)
    (items : list Item.t)
    (Hplain : forall i, In i items ->
                        JSObject.inherited (Item.dateGroup i) = false) :
  exists groups,
    App.sortedGroupedData Date_parse items = Some groups
    /\ Permutation (concat (map Group.items groups)) items
    /\ Forall (fun g => Group.items g <> []) groups.
Proof.
  eexists. split; [apply sortedGroupedData_expected; assumption|].
  set (groups := JSArray.sort (App.byDateDescending Date_parse)
                   (Grouping.expected items)).
  assert (Hperm : Permutation groups (Grouping.expected items))
    by apply sort_perm.
  split.
  - rewrite <- flat_map_concat_map.
    rewrite (Permutation_flat_map Group.items Hperm).
    unfold Grouping.expected. rewrite flat_map_concat_map, map_map.
    rewrite <- flat_map_concat_map.
    change (fun x => Group.items (Grouping.groupOf items x))
      with (fun k => filter (Grouping.labelled k) items).
    rewrite (Permutation_flat_map _ (propertyOrder_perm _)).
    apply groups_partition; [apply distinct_NoDup|].
    intros i Hi. apply distinct_In. unfold Grouping.labels.
    apply in_map. assumption.
  - apply Forall_forall. intros g Hg.
    apply (Permutation_in _ Hperm) in Hg.
    apply expected_groups in Hg. destruct Hg as [Hgroup Hlabel].
    unfold Grouping.labels in Hlabel. apply in_map_iff in Hlabel.
    destruct Hlabel as (i & Hi & Hin).
    rewrite Hgroup. cbn [Grouping.groupOf Group.items].
    assert (Hfi : In i (filter (Grouping.labelled (Group.date g)) items)).
    { apply filter_In. split; [assumption|].
      unfold Grouping.labelled. rewrite Hi. apply eqb_refl. }
    intros Hnil. rewrite Hnil in Hfi. exact Hfi.
Qed.

Lemma grouping_partitions_witness :
  (forall i,
      In i [ sampleItem "a" "April 15, 2025"; sampleItem "b" "Undated";
             sampleItem "c" "April 15, 2025" ] ->
      JSObject.inherited (Item.dateGroup i) = false)
  /\ exists groups,
      App.sortedGroupedData MonthDayYear.parse
        [ sampleItem "a" "April 15, 2025"; sampleItem "b" "Undated";
          sampleItem "c" "April 15, 2025" ]
      = Some groups
      /\ Forall (fun g => Group.items g <> []) groups.
Proof.
  assert (Hplain : forall i,
             In i [ sampleItem "a" "April 15, 2025"; sampleItem "b" "Undated";
                    sampleItem "c" "April 15, 2025" ] ->
             JSObject.inherited (Item.dateGroup i) = false).
  { intros i [<-|[<-|[<-|[]]]]; reflexivity. }
  split; [exact Hplain|].
  destruct (@grouping_partitions MonthDayYear.parse _ Hplain)
    as (groups & Hrun & _ & Hfull).
  exists groups. split; assumption.
Defined.

(** *** Equal dates *)

Section Stable.
Variable A : Type.
Variable comparefn : A -> A -> option Z.

Lemma precedes_In (a b : A) (l : list A) :
  precedes a b l -> In a l /\ In b l.
Proof.
  induction 1 as [l Hb|x l H [IHa IHb]]; simpl; auto.
Qed.

Lemma insert_keeps_order (x a b : A) (l : list A) :
  precedes a b l -> precedes a b (JSArray.insert comparefn x l).
Proof.
  induction 1 as [l Hb|y l H IH]; simpl.
  - destruct (JSArray.sortCompare comparefn x a <=? 0)%Z.
    + apply precedes_later. apply precedes_here. assumption.
    + apply precedes_here.
      apply (Permutation_in _ (Permutation_sym (insert_perm comparefn x l))).
      right. assumption.
  - destruct (JSArray.sortCompare comparefn x y <=? 0)%Z.
    + apply precedes_later. apply precedes_later. assumption.
    + apply precedes_later. assumption.
Qed.

Lemma insert_before (x b : A) (l : list A) :
  In b l -> (JSArray.sortCompare comparefn x b <= 0)%Z ->
  precedes x b (JSArray.insert comparefn x l).
Proof.
  induction l as [|y l IH]; simpl; [contradiction|].
  intros Hin Hle.
  destruct (Z.leb_spec (JSArray.sortCompare comparefn x y) 0).
  - apply precedes_here. assumption.
  - apply precedes_later. apply IH; [|assumption].
    destruct Hin as [->|Hin]; [lia | assumption].
Qed.

(** The sort keeps two elements in their order when the first does not
    compare above the second. *)
Lemma sort_keeps_order (a b : A) (l : list A) :
  precedes a b l -> (JSArray.sortCompare comparefn a b <= 0)%Z ->
  precedes a b (JSArray.sort comparefn l).
Proof.
  intros Hprec Hle. induction Hprec as [l Hb|x l H IH]; simpl.
  - apply insert_before; [|assumption].
    apply (Permutation_in _ (Permutation_sym (sort_perm comparefn l))).
    assumption.
  - apply insert_keeps_order. assumption.
Qed.
End Stable.

(** X12. When no label is a name that plain objects inherit and every
    label parses as a date, two groups whose dates are equal come out in
    the order in which the grouping object enumerates them (array-index
    labels ascending, then first occurrence). *)
Theorem equal_dates_keep_order (Date_parse : jsstring -> option Z)
    (items : list Item.t) (a b : Group.t)
    (Hplain : forall i, In i items ->
                        JSObject.inherited (Item.dateGroup i) = false)
    (Hdated : forall i, In i items -> Date_parse (Item.dateGroup i) <> None)
    (Horder : precedes a b (Grouping.expected items))
    (Hequal : Date_parse (Group.date a) = Date_parse (Group.date b)) :
  exists groups,
    App.sortedGroupedData Date_parse items = Some groups
    /\ precedes a b groups.
Proof.
  eexists. split; [apply sortedGroupedData_expected; assumption|].
  apply sort_keeps_order; [assumption|].
  unfold JSArray.sortCompare, App.byDateDescending. rewrite Hequal.
  destruct (Date_parse (Group.date b)); lia.
Qed.

(** The sample reader takes the day of the month with or without a leading
    zero, so that two labels name one date. *)
Lemma equal_dates_keep_order_witness :
  MonthDayYear.parse (js "May 1, 2025") = MonthDayYear.parse (js "May 01, 2025")
  /\ exists groups,
      App.sortedGroupedData MonthDayYear.parse
        [ sampleItem "a" "May 01, 2025"; sampleItem "b" "May 1, 2025" ]
      = Some groups
      /\ precedes
           (Grouping.groupOf
              [ sampleItem "a" "May 01, 2025"; sampleItem "b" "May 1, 2025" ]
              (js "May 01, 2025"))
           (Grouping.groupOf
              [ sampleItem "a" "May 01, 2025"; sampleItem "b" "May 1, 2025" ]
              (js "May 1, 2025"))
           groups.
Proof.
  split; [reflexivity|].
  apply (@equal_dates_keep_order MonthDayYear.parse
           [ sampleItem "a" "May 01, 2025"; sampleItem "b" "May 1, 2025" ]).
  - intros i [<-|[<-|[]]]; reflexivity.
  - intros i [<-|[<-|[]]]; discriminate.
  - apply precedes_here. left. reflexivity.
  - reflexivity.
Defined.

(** *** When the listing fails *)

Lemma processedItems_labels (rows : list Row.t) (items : list Item.t) :
  App.processedItems rows = Some items ->
  map Item.dateGroup items = map Row.dateGroup rows.
Proof.
  revert items. induction rows as [|r rows IH]; simpl; intros items H.
  - inversion H. reflexivity.
  - destruct (App.processItem r) as [i|] eqn:Ei; [|discriminate].
    destruct (App.processedItems rows) as [is'|]; [|discriminate].
    inversion H; subst. simpl. rewrite (IH is' eq_refl). f_equal.
    unfold App.processItem in Ei.
    destruct (App.decodeCategories (Row.categories r)); [|discriminate].
    inversion Ei. reflexivity.
Qed.

Lemma processedItems_none (rows : list Row.t) :
  App.processedItems rows = None <->
  exists r, In r rows /\ App.decodeCategories (Row.categories r) = None.
Proof.
  induction rows as [|r rows IH]; simpl.
  - split; [discriminate | intros (r & [] & _)].
  - unfold App.processItem at 1.
    destruct (App.decodeCategories (Row.categories r)) eqn:E.
    + destruct (App.processedItems rows) as [is'|].
      * split; [discriminate|].
        intros (x & [<-|Hin] & Hx); [congruence|].
        destruct IH as [_ IH]. discriminate IH. eauto.
      * split; [|reflexivity]. intros _.
        destruct IH as [IH _]. destruct (IH eq_refl) as (x & Hin & Hx).
        eauto.
    + split; [|reflexivity]. intros _. exists r. auto.
Qed.

(** X11. [GET /api/gallery] answers 500 exactly when some row has a
    [categories] column that is not JSON, or some row has a [dateGroup] that
    is a property name plain objects inherit ([constructor], [toString],
    ...); in every other case it answers 200. *)
Theorem gallery_fails_iff (Date_parse : jsstring -> option Z)
    (db : Sqlite.table) :
  (App.getGallery Date_parse db = Http.Error 500 "Failed to fetch gallery items"
   <-> (exists r, In r db /\ App.decodeCategories (Row.categories r) = None)
       \/ (exists r, In r db /\ JSObject.inherited (Row.dateGroup r) = true))
  /\ ((exists groups, App.getGallery Date_parse db = Http.Json 200 groups)
      \/ App.getGallery Date_parse db
         = Http.Error 500 "Failed to fetch gallery items").
Proof.
  unfold App.getGallery, Sqlite.all.
  destruct (App.processedItems db) as [items|] eqn:Eitems.
  - pose proof (@processedItems_labels _ _ Eitems) as Hlabels.
    destruct (existsb (fun i => JSObject.inherited (Item.dateGroup i)) items)
      eqn:Einh.
    + apply existsb_exists in Einh. destruct Einh as (i & Hi & Hinh).
      rewrite (@inherited_label_throws Date_parse items)
        by (exists i; auto).
      split; [|right; reflexivity]. split; [|reflexivity]. intros _. right.
      assert (Hin : In (Item.dateGroup i) (map Row.dateGroup db)).
      { rewrite <- Hlabels. apply in_map. assumption. }
      apply in_map_iff in Hin. destruct Hin as (r & Hr & Hin).
      exists r. split; [assumption | congruence].
    + assert (Hplain : forall i, In i items ->
                         JSObject.inherited (Item.dateGroup i) = false).
      { intros i Hi.
        destruct (JSObject.inherited (Item.dateGroup i)) eqn:E; [|reflexivity].
        assert (existsb (fun i => JSObject.inherited (Item.dateGroup i)) items
                = true) by (apply existsb_exists; eauto).
        congruence. }
      rewrite (@sortedGroupedData_expected Date_parse items Hplain).
      split; [|left; eauto]. split; [discriminate|].
      intros [(r & Hin & Hr)|(r & Hin & Hr)].
      * assert (App.processedItems db = None)
          by (apply processedItems_none; eauto).
        congruence.
      * assert (Hl : In (Row.dateGroup r) (map Item.dateGroup items)).
        { rewrite Hlabels. apply in_map. assumption. }
        apply in_map_iff in Hl. destruct Hl as (i & Hi & Hini).
        rewrite <- Hi in Hr. rewrite (Hplain i Hini) in Hr. discriminate.
  - split; [|right; reflexivity]. split; [|reflexivity]. intros _. left.
    apply processedItems_none. assumption.
Qed.

Lemma gallery_fails_iff_witness :
  App.getGallery MonthDayYear.parse
    [ sampleRow "a" 0;
      {| Row.id := js "b"; Row.type := js "image";
         Row.src := js "/uploads/1746057600000-b.png";
         Row.alt := Some (js "b.png"); Row.poster := None;
         Row.isFavorite := 0; Row.dateGroup := js "toString";
         Row.categories := Some (js "[]") |} ]
  = Http.Error 500 "Failed to fetch gallery items".
Proof.
  apply (proj2 (proj1 (gallery_fails_iff MonthDayYear.parse _))).
  right. eexists. split; [right; left; reflexivity | reflexivity].
Defined.

(** ** The process *)

(** X14. [startServer()] never exits on the seeding: it always gets to
    listen, with the handle set, on a table that is not empty: the table
    it found if that had rows, the sixteen seed rows if it had none. *)
Theorem startServer_listens (s : Server.state) :
  exists s',
    Server.startServer s = Some s'
    /\ Server.getDb s' = Some (Server.table s')
    /\ Server.table s' <> []
    /\ Server.table s'
       = match Server.table s with
         | [] => map Db.seedRow Db.initialMockGalleryItems
         | _ :: _ => Server.table s
         end.
Proof.
  unfold Server.startServer, Db.initializeDatabase, Db.isTableEmpty,
    Sqlite.count.
  destruct (Server.table s) as [|r db] eqn:E.
  - eexists. split; [vm_compute; reflexivity|].
    split; [reflexivity|]. split; [discriminate | reflexivity].
  - replace (Z.of_nat (length (r :: db)) =? 0)%Z with false
      by (symmetry; apply Z.eqb_neq; simpl length; lia).
    eexists. split; [reflexivity|]. split; [reflexivity|].
    split; [discriminate | reflexivity].
Qed.
